(** * Verification of the Urdu summarisation pipeline (llm.py)

    A shallow embedding of [UrduLLMProcessor] from [llm.py]: the category
    mapping, the classification facade, the paragraph/sentence splitter, the
    greedy chunk packer, the safe summariser wrapper and the summarisation
    orchestrator, followed by the properties proved about them.

    Modelling conventions.
    - A Python [str] is a list of Unicode code points ([text]).
    - A Python [int] is a [Z]; [//] is [Z.div] (both floor), [len] is [len].
    - The tokenizer is a total, deterministic function of its argument; the
      classifier and the summariser are external models that may raise and
      whose answer may depend on everything that happened before (the log).
    - Every call to the tokenizer or to a model is appended to a log, so that
      "how many calls, with which arguments, in which order" can be stated.
    - [print] is not modelled. *)

From Stdlib Require Import List ZArith NArith Lia Bool.
From Stdlib Require String Ascii.
Import ListNotations String.StringSyntax.

Abbreviation string := String.string.

Local Open Scope string_scope.
Local Open Scope list_scope.
Local Open Scope Z_scope.

(* ================================================================== *)
(** ** Python strings *)

Definition char := N.
Definition text := list char.

(** Decoding of the UTF-8 bytes of a source literal into code points. *)
Fixpoint utf8_decode (need : nat) (acc : N) (bs : list N) : text :=
  match bs with
  | [] => []
  | b :: bs' =>
      match need with
      | O =>
          if (b <? 128)%N then b :: utf8_decode 0 0%N bs'
          else if (b <? 224)%N then utf8_decode 1 (b - 192)%N bs'
          else if (b <? 240)%N then utf8_decode 2 (b - 224)%N bs'
          else utf8_decode 3 (b - 240)%N bs'
      | S O => (acc * 64 + (b - 128))%N :: utf8_decode 0 0%N bs'
      | S k => utf8_decode k (acc * 64 + (b - 128))%N bs'
      end
  end.

(** [py "..."] is the Python string written with the same literal. *)
Definition py (s : string) : text :=
  utf8_decode 0 0%N (map Ascii.N_of_ascii (String.list_ascii_of_string s)).

Definition len {A : Type} (l : list A) : Z := Z.of_nat (length l).

Definition char_eqb (a b : char) : bool := N.eqb a b.

Fixpoint startswith (s prefix : text) : bool :=
  match prefix, s with
  | [], _ => true
  | p :: prefix', c :: s' => char_eqb p c && startswith s' prefix'
  | _ :: _, [] => false
  end.

(** [sub in s] of Python. *)
Fixpoint contains (sub s : text) : bool :=
  startswith s sub ||
  match s with
  | [] => false
  | _ :: s' => contains sub s'
  end.

(** [sep.join(parts)]. *)
Fixpoint join (sep : text) (parts : list text) : text :=
  match parts with
  | [] => []
  | [p] => p
  | p :: rest => p ++ sep ++ join sep rest
  end.

(** Truthiness of a list ([if current_chunk:]). *)
Definition nonempty {A : Type} (l : list A) : bool :=
  match l with [] => false | _ :: _ => true end.

(** Truthiness of a value that is [None] or a [str] ([if summary:]). *)
Definition truthy (o : option text) : bool :=
  match o with
  | Some (_ :: _) => true
  | _ => false
  end.

(* ================================================================== *)
(** ** Configuration set by [__init__] *)

Definition MAX_CLASSIFICATION_TOKENS : Z := 500.
Definition MAX_SUMMARIZATION_TOKENS : Z := 768.
Definition CHUNK_OVERLAP : Z := 30.
Definition MIN_SUMMARY_LENGTH : Z := 25.
Definition MAX_SUMMARY_LENGTH : Z := 120.
Definition MIN_CHUNK_LENGTH : Z := 150.

(** The category tags returned by [_map_to_urdu_category]. *)
Definition TAG_SPORTS : text := py "کھیل".
Definition TAG_TECHNOLOGY : text := py "ٹیکنالوجی".
Definition TAG_POLITICS : text := py "سیاست".
Definition TAG_HEALTH : text := py "صحت".
Definition TAG_SCIENCE : text := py "سائنس".
Definition TAG_WORLD : text := py "عالمی".
Definition TAG_ARTS : text := py "فن و ثقافت".
Definition TAG_BUSINESS : text := py "کاروبار".
Definition TAG_OTHER : text := py "دیگر".

(** The two messages [summarize_text] returns in place of a summary. *)
Definition NO_SUMMARY_TOO_SHORT : text := py "خلاصہ دستیاب نہیں (متن بہت چھوٹا ہے)".
Definition NO_SUMMARY : text := py "خلاصہ دستیاب نہیں".

(* ================================================================== *)
(** ** The Python runtime the code relies on

    The Unicode tables of [re] and [str.lower], and the type of tokens, are
    not part of the repository.  [re] documents [\s] as [[ \t\n\r\f\v]] plus
    other Unicode whitespace and [\w] as [[a-zA-Z0-9_]] plus other Unicode
    word characters: the ASCII part is written out, the rest is a field. *)

Class PythonRuntime := {
  token : Type;
  re_unicode_space : char -> bool;
  re_unicode_word : char -> bool;
  str_lower : text -> text
}.

Definition NEWLINE : char := 10%N.
Definition SPACE : char := 32%N.
Definition FULL_STOP : char := 46%N.
Definition QUESTION_MARK : char := 63%N.
Definition EXCLAMATION_MARK : char := 33%N.

Definition in_range (lo hi c : char) : bool := ((lo <=? c) && (c <=? hi))%N.

(** [[A-Z]] and [[a-z]]. *)
Definition re_upper_AZ (c : char) : bool := in_range 65%N 90%N c.
Definition re_lower_az (c : char) : bool := in_range 97%N 122%N c.

(** [.] without DOTALL: anything but a newline. *)
Definition re_any (c : char) : bool := negb (char_eqb c NEWLINE).

Section Regex.
Context `{PythonRuntime}.

(** [\s] *)
Definition re_space (c : char) : bool :=
  char_eqb c SPACE || in_range 9%N 13%N c || re_unicode_space c.

(** [\w] *)
Definition re_word (c : char) : bool :=
  re_upper_AZ c || re_lower_az c || in_range 48%N 57%N c || char_eqb c 95%N
  || re_unicode_word c.

(** *** [re.split(r'\n\s*\n', text)] *)

(** Length of the match of [\s*\n] at the start of [s], if there is one:
    [\s*] is greedy, so the longest run is tried first. *)
Fixpoint match_space_newline (s : text) : option nat :=
  match s with
  | [] => None
  | c :: s' =>
      if re_space c then
        match match_space_newline s' with
        | Some n => Some (S n)
        | None => if char_eqb c NEWLINE then Some 1%nat else None
        end
      else None
  end.

(** Puts [c] in front of the piece being read. *)
Definition cons_head (c : char) (pieces : list text) : list text :=
  match pieces with
  | [] => [[c]]
  | p :: ps => (c :: p) :: ps
  end.

(** [skip] characters of a separator are still to be passed over. *)
Fixpoint split_paragraphs_from (skip : nat) (s : text) : list text :=
  match s with
  | [] => [[]]
  | c :: s' =>
      match skip with
      | S k => split_paragraphs_from k s'
      | O =>
          if char_eqb c NEWLINE then
            match match_space_newline s' with
            | Some n => [] :: split_paragraphs_from n s'
            | None => cons_head c (split_paragraphs_from 0 s')
            end
          else cons_head c (split_paragraphs_from 0 s')
      end
  end.

Definition re_split_paragraphs (s : text) : list text :=
  split_paragraphs_from 0 s.

(** *** [re.split(r'(?<!\w\.\w.)(?<![A-Z][a-z]\.)(?<=\.|\?|\!)\s', text)]

    [before] holds the characters already read, the last one first. *)

(** [(?<!\w\.\w.)] fails when this holds. *)
Definition behind_abbreviation (before : text) : bool :=
  match before with
  | c1 :: c2 :: c3 :: c4 :: _ =>
      re_word c4 && char_eqb c3 FULL_STOP && re_word c2 && re_any c1
  | _ => false
  end.

(** [(?<![A-Z][a-z]\.)] fails when this holds. *)
Definition behind_title (before : text) : bool :=
  match before with
  | c1 :: c2 :: c3 :: _ =>
      re_upper_AZ c3 && re_lower_az c2 && char_eqb c1 FULL_STOP
  | _ => false
  end.

(** [(?<=\.|\?|\!)] *)
Definition behind_terminator (before : text) : bool :=
  match before with
  | c1 :: _ =>
      char_eqb c1 FULL_STOP || char_eqb c1 QUESTION_MARK
      || char_eqb c1 EXCLAMATION_MARK
  | [] => false
  end.

Definition sentence_break (before : text) (c : char) : bool :=
  negb (behind_abbreviation before) && negb (behind_title before)
  && behind_terminator before && re_space c.

Fixpoint split_sentences_from (before : text) (s : text) : list text :=
  match s with
  | [] => [[]]
  | c :: s' =>
      if sentence_break before c
      then [] :: split_sentences_from (c :: before) s'
      else cons_head c (split_sentences_from (c :: before) s')
  end.

Definition re_split_sentences (s : text) : list text :=
  split_sentences_from [] s.

End Regex.

(* ================================================================== *)
(** ** Exceptions, the call log and the monad of the methods *)

(** The exceptions that can occur.  All are subclasses of [Exception], so
    every [except Exception] clause catches each of them. *)
Inductive exn :=
| ValueError (msg : string)
| IndexError
| TypeError
| ModelError (msg : string).

Inductive result (A : Type) :=
| Ok (a : A)
| Raise (e : exn).
Arguments Ok {A} a.
Arguments Raise {A} e.

Section Effects.
Context `{PythonRuntime}.

(** One entry per call that leaves the processor. *)
Inductive event :=
| Tokenize (t : text)
| ConvertTokens (tokens : list token)
| Classify (t : text)
| Summarize (t : text) (max_length min_length : Z).

Definition log := list event.

Definition M (A : Type) : Type := log -> result A * log.

Definition ret {A} (a : A) : M A := fun l => (Ok a, l).

Definition raise {A} (e : exn) : M A := fun l => (Raise e, l).

Definition bind {A B} (m : M A) (k : A -> M B) : M B :=
  fun l =>
    match m l with
    | (Ok a, l') => k a l'
    | (Raise e, l') => (Raise e, l')
    end.

(** [try: body / except Exception: handler]; what [body] did before it
    raised stays in the log. *)
Definition try_except {A} (body : M A) (handler : exn -> M A) : M A :=
  fun l =>
    match body l with
    | (Ok a, l') => (Ok a, l')
    | (Raise e, l') => handler e l'
    end.

Definition run {A} (m : M A) (l : log) : result A * log := m l.

End Effects.

Notation "x <- m ;; k" := (bind m (fun x => k))
  (at level 61, m at next level, right associativity).

Section Processor.
Context `{PythonRuntime}.

(** [for x in xs: s = body(x, s)] *)
Fixpoint for_each {A S : Type} (xs : list A) (body : A -> S -> M S) (s : S)
  : M S :=
  match xs with
  | [] => ret s
  | x :: xs' => s' <- body x s ;; for_each xs' body s'
  end.

(** [[x for x in xs if keep(x)]] *)
Fixpoint comprehension_if {A : Type} (xs : list A) (keep : A -> M bool)
  : M (list A) :=
  match xs with
  | [] => ret []
  | x :: xs' =>
      b <- keep x ;;
      rest <- comprehension_if xs' keep ;;
      ret (if b then x :: rest else rest)
  end.

(** [xs[0]] *)
Definition first_item {A : Type} (xs : list A) : M A :=
  match xs with
  | [] => raise IndexError
  | x :: _ => ret x
  end.

(** *** The models held by the processor *)

Record Tokenizer := {
  tokenize : text -> list token;
  convert_tokens_to_string : list token -> text
}.

(** A text-classification pipeline: the [label] of each returned item,
    or an exception.  The first argument is the log so far. *)
Definition Classifier := log -> text -> result (list text).

(** A summarization pipeline: the [summary_text] of each returned item,
    or an exception; the arguments are the text, [max_length] and
    [min_length]. *)
Definition Summarizer := log -> text -> Z -> Z -> result (list text).

(** [self].  [classifier] and [summarizer] are [None] until
    [initialize_models] has loaded them; [initialize_models] loads the
    tokenizer before either of them, so a processor that passes the guard
    of a public method has its tokenizer. *)
Record UrduLLMProcessor := {
  classifier : option Classifier;
  summarizer : option Summarizer;
  tokenizer : Tokenizer
}.

Definition tokenizer_tokenize (self : UrduLLMProcessor) (t : text)
  : M (list token) :=
  fun l => (Ok (tokenize (tokenizer self) t), l ++ [Tokenize t]).

Definition tokenizer_convert_tokens_to_string (self : UrduLLMProcessor)
    (tokens : list token) : M text :=
  fun l =>
    (Ok (convert_tokens_to_string (tokenizer self) tokens),
     l ++ [ConvertTokens tokens]).

(** [self.classifier(text)] *)
Definition call_classifier (self : UrduLLMProcessor) (t : text)
  : M (list text) :=
  match classifier self with
  | None => raise TypeError
  | Some model => fun l => (model l t, l ++ [Classify t])
  end.

(** [self.summarizer(text, max_length=.., min_length=.., do_sample=False,
    truncation=True)] *)
Definition call_summarizer (self : UrduLLMProcessor) (t : text)
    (max_length min_length : Z) : M (list text) :=
  match summarizer self with
  | None => raise TypeError
  | Some model =>
      fun l => (model l t max_length min_length,
                l ++ [Summarize t max_length min_length])
  end.

(** *** [_map_to_urdu_category] *)
Definition _map_to_urdu_category (label : text) : text :=
  let label := str_lower label in
  if contains (py "sport") label then TAG_SPORTS
  else if contains (py "tech") label then TAG_TECHNOLOGY
  else if contains (py "polit") label then TAG_POLITICS
  else if contains (py "health") label then TAG_HEALTH
  else if contains (py "science") label then TAG_SCIENCE
  else if contains (py "world") label then TAG_WORLD
  else if contains (py "art") label || contains (py "culture") label
       then TAG_ARTS
  else if contains (py "business") label then TAG_BUSINESS
  else TAG_OTHER.

(** *** [_truncate_text_to_tokens] *)
Definition _truncate_text_to_tokens (self : UrduLLMProcessor) (t : text)
    (max_tokens : Z) : M text :=
  tokens <- tokenizer_tokenize self t ;;
  if len tokens <=? max_tokens then ret t
  else
    let truncated_tokens := firstn (Z.to_nat max_tokens) tokens in
    tokenizer_convert_tokens_to_string self truncated_tokens.

(** *** [classify_text] *)
Definition classify_text (self : UrduLLMProcessor) (t : text) : M text :=
  match classifier self with
  | None => raise (ValueError "Classifier not initialized")
  | Some _ =>
      try_except
        (safe_text <-
           _truncate_text_to_tokens self t MAX_CLASSIFICATION_TOKENS ;;
         result <- call_classifier self safe_text ;;
         label <- first_item result ;;
         ret (_map_to_urdu_category label))
        (fun _ => ret TAG_OTHER)
  end.

End Processor.

Section Summarization.
Context `{PythonRuntime}.

(** *** [_chunk_text_for_summarization] *)

(** The three local variables of the packing loops. *)
Record packer := {
  chunks : list text;
  current_chunk : list text;
  current_length : Z
}.

Definition packer_start : packer :=
  {| chunks := []; current_chunk := []; current_length := 0 |}.

(** [if current_chunk: chunks.append(' '.join(current_chunk))] *)
Definition flush (chunks : list text) (current_chunk : list text)
  : list text :=
  if nonempty current_chunk
  then chunks ++ [join [SPACE] current_chunk]
  else chunks.

(** The [if current_length + n > MAX: ... else: ...] block, which the
    source repeats for a sentence of a long paragraph, for a whole
    paragraph and for a sentence of a one-paragraph text. *)
Definition pack (unit : text) (unit_length : Z) (st : packer) : packer :=
  if current_length st + unit_length >? MAX_SUMMARIZATION_TOKENS then
    {| chunks := flush (chunks st) (current_chunk st);
       current_chunk := [unit];
       current_length := unit_length |}
  else
    {| chunks := chunks st;
       current_chunk := current_chunk st ++ [unit];
       current_length := current_length st + unit_length |}.

(** Body of [for sent in sentences]. *)
Definition pack_sentence (self : UrduLLMProcessor) (sent : text)
    (st : packer) : M packer :=
  sent_tokens <- tokenizer_tokenize self sent ;;
  let sent_length := len sent_tokens in
  ret (pack sent sent_length st).

(** Body of [for para in paragraphs]. *)
Definition pack_paragraph (self : UrduLLMProcessor) (para : text)
    (st : packer) : M packer :=
  para_tokens <- tokenizer_tokenize self para ;;
  let para_length := len para_tokens in
  if para_length >? MAX_SUMMARIZATION_TOKENS then
    let sentences := re_split_sentences para in
    for_each sentences (pack_sentence self) st
  else
    ret (pack para para_length st).

Definition _chunk_text_for_summarization (self : UrduLLMProcessor)
    (t : text) : M (list text) :=
  let paragraphs := re_split_paragraphs t in
  if len paragraphs >? 1 then
    st <- for_each paragraphs (pack_paragraph self) packer_start ;;
    ret (flush (chunks st) (current_chunk st))
  else
    let sentences := re_split_sentences t in
    st <- for_each sentences (pack_sentence self) packer_start ;;
    ret (flush (chunks st) (current_chunk st)).

(** *** [_safe_summarize] *)

(** [actual_max = min(max_length, token_count)] *)
Definition clamp_max (max_length token_count : Z) : Z :=
  Z.min max_length token_count.

(** [actual_min = min(min_length, actual_max - 1)] *)
Definition clamp_min (min_length actual_max : Z) : Z :=
  Z.min min_length (actual_max - 1).

(** [if actual_min >= actual_max: actual_min = max(10, actual_max // 2)] *)
Definition reset_min (actual_min actual_max : Z) : Z :=
  if actual_min >=? actual_max then Z.max 10 (actual_max / 2)
  else actual_min.

Definition _safe_summarize (self : UrduLLMProcessor) (t : text)
    (max_length min_length : Z) : M (option text) :=
  tokens <- tokenizer_tokenize self t ;;
  let token_count := len tokens in
  if token_count <? MIN_CHUNK_LENGTH then ret None
  else
    let actual_max := clamp_max max_length token_count in
    let actual_min := clamp_min min_length actual_max in
    let actual_min := reset_min actual_min actual_max in
    try_except
      (summary <- call_summarizer self t actual_max actual_min ;;
       item <- first_item summary ;;
       ret (Some item))
      (fun _ => ret None).

(** *** [summarize_text] *)

(** [self.MAX_SUMMARY_LENGTH // len(valid_chunks)] *)
Definition chunk_max_length (chunk_count : Z) : Z :=
  MAX_SUMMARY_LENGTH / chunk_count.

(** [max(15, self.MIN_SUMMARY_LENGTH // len(valid_chunks))] *)
Definition chunk_min_length (chunk_count : Z) : Z :=
  Z.max 15 (MIN_SUMMARY_LENGTH / chunk_count).

(** Body of [for chunk in valid_chunks]. *)
Definition summarize_chunk (self : UrduLLMProcessor) (valid_chunks : list text)
    (chunk : text) (chunk_summaries : list text) : M (list text) :=
  chunk_summary <-
    _safe_summarize self chunk
      (chunk_max_length (len valid_chunks))
      (chunk_min_length (len valid_chunks)) ;;
  if truthy chunk_summary
  then ret (chunk_summaries ++ [match chunk_summary with
                                | Some s => s
                                | None => []
                                end])
  else ret chunk_summaries.

(** The statements after the whole-text attempt, from
    [chunks = self._chunk_text_for_summarization(text)] to the end. *)
Definition summarize_chunked (self : UrduLLMProcessor) (t : text) : M text :=
  chunks <- _chunk_text_for_summarization self t ;;
  valid_chunks <-
    comprehension_if chunks
      (fun chunk =>
         chunk_tokens <- tokenizer_tokenize self chunk ;;
         ret (len chunk_tokens >=? MIN_CHUNK_LENGTH)) ;;
  if negb (nonempty valid_chunks) then ret NO_SUMMARY_TOO_SHORT
  else
    chunk_summaries <-
      for_each valid_chunks (summarize_chunk self valid_chunks) [] ;;
    if negb (nonempty chunk_summaries) then ret NO_SUMMARY
    else ret (join [SPACE] chunk_summaries).

Definition summarize_text (self : UrduLLMProcessor) (t : text) : M text :=
  match summarizer self with
  | None => raise (ValueError "Summarizer not initialized")
  | Some _ =>
      tokens <- tokenizer_tokenize self t ;;
      if len tokens <=? MAX_SUMMARIZATION_TOKENS then
        summary <-
          _safe_summarize self t MAX_SUMMARY_LENGTH MIN_SUMMARY_LENGTH ;;
        if truthy summary
        then ret (match summary with Some s => s | None => [] end)
        else summarize_chunked self t
      else summarize_chunked self t
  end.

End Summarization.

(* ================================================================== *)
(** ** Vocabulary of the properties *)

Section Vocabulary.
Context `{PythonRuntime}.
Variable self : UrduLLMProcessor.

(** [len(self.tokenizer.tokenize(u))] *)
Definition token_count (u : text) : Z := len (tokenize (tokenizer self) u).

(** Sum of the token counts of the units of a group. *)
Definition total_tokens (units : list text) : Z :=
  fold_right (fun u n => token_count u + n) 0 units.

(** The units a paragraph contributes: its sentences when it is longer
    than the limit on its own, itself otherwise. *)
Definition paragraph_units (para : text) : list text :=
  if token_count para >? MAX_SUMMARIZATION_TOKENS
  then re_split_sentences para
  else [para].

(** The structural units of a text, in order: paragraphs (long ones
    replaced by their sentences) when there are several paragraphs, the
    sentences of the text otherwise. *)
Definition structural_units (t : text) : list text :=
  if len (re_split_paragraphs t) >? 1
  then flat_map paragraph_units (re_split_paragraphs t)
  else re_split_sentences t.

(** A group of units respects the budget: its accumulated token count is
    within the limit, or it is a single unit that is over the limit alone. *)
Definition within_budget (group : list text) : Prop :=
  total_tokens group <= MAX_SUMMARIZATION_TOKENS
  \/ exists u, group = [u] /\ token_count u > MAX_SUMMARIZATION_TOKENS.

(** The packing loops as one left fold over the units. *)
Definition pack_all (units : list text) (st : packer) : packer :=
  fold_left (fun st u => pack u (token_count u) st) units st.

(** The tokenizer calls of one iteration of [for para in paragraphs]. *)
Definition paragraph_log (para : text) : log :=
  Tokenize para ::
  (if token_count para >? MAX_SUMMARIZATION_TOKENS
   then map Tokenize (re_split_sentences para)
   else []).

(** The tokenizer calls of [_chunk_text_for_summarization]. *)
Definition chunking_log (t : text) : log :=
  if len (re_split_paragraphs t) >? 1
  then flat_map paragraph_log (re_split_paragraphs t)
  else map Tokenize (re_split_sentences t).

(** What the packing loops maintain once [units] have been read: the
    closed chunks are the joins of non-empty groups within the budget,
    the groups followed by the open chunk are the units read so far, and
    [current_length] is the accumulated count of the open chunk. *)
Definition packed (units : list text) (st : packer) : Prop :=
  exists groups,
    chunks st = map (join [SPACE]) groups
    /\ Forall (fun g => g <> [] /\ within_budget g) groups
    /\ concat groups ++ current_chunk st = units
    /\ current_length st = total_tokens (current_chunk st)
    /\ within_budget (current_chunk st).

(** [whitespace sep]: every character of [sep] matches [\s]. *)
Definition whitespace (sep : text) : Prop := forallb re_space sep = true.

(** [separated units t]: [t] is the units in order, with a (possibly
    empty) run of whitespace between consecutive units and nothing else. *)
Inductive separated : list text -> text -> Prop :=
| separated_one (u : text) : separated [u] u
| separated_more (u sep : text) (units : list text) (t : text) :
    whitespace sep -> separated units t ->
    separated (u :: units) (u ++ sep ++ t).

(** The summarizer calls of a log, in order. *)
Definition is_summarize (e : event) : bool :=
  match e with Summarize _ _ _ => true | _ => false end.

Definition summarizer_calls (l : log) : log := filter is_summarize l.

(** The chunks the packer returns for a text. *)
Definition chunk_texts (t : text) : list text :=
  let st := pack_all (structural_units t) packer_start in
  flush (chunks st) (current_chunk st).

(** The chunks that are long enough to be summarised. *)
Definition viable (chunk : text) : bool :=
  token_count chunk >=? MIN_CHUNK_LENGTH.

Definition viable_chunks (t : text) : list text :=
  filter viable (chunk_texts t).

(** The summarizer call [_safe_summarize] makes for a text of at least
    [MIN_CHUNK_LENGTH] tokens. *)
Definition summarizer_call (max_length min_length : Z) (t : text) : event :=
  let actual_max := clamp_max max_length (token_count t) in
  let actual_min := clamp_min min_length actual_max in
  Summarize t actual_max (reset_min actual_min actual_max).

(** What [_safe_summarize] makes of the summarizer's answer. *)
Definition summary_of (answer : result (list text)) : option text :=
  match answer with
  | Ok (item :: _) => Some item
  | _ => None
  end.

(** The category table of [_map_to_urdu_category], in the order of its
    tests: the keywords of a group and the tag it stands for. *)
Definition keyword_groups : list (list text * text) :=
  [ ([py "sport"], TAG_SPORTS);
    ([py "tech"], TAG_TECHNOLOGY);
    ([py "polit"], TAG_POLITICS);
    ([py "health"], TAG_HEALTH);
    ([py "science"], TAG_SCIENCE);
    ([py "world"], TAG_WORLD);
    ([py "art"; py "culture"], TAG_ARTS);
    ([py "business"], TAG_BUSINESS) ].

(** A label matches a group when it contains one of its keywords. *)
Definition matches_group (label : text) (keywords : list text) : bool :=
  existsb (fun keyword => contains keyword label) keywords.

(** The tag of the first group, in table order, that the label matches. *)
Fixpoint first_match (groups : list (list text * text)) (label : text)
    (otherwise : text) : text :=
  match groups with
  | [] => otherwise
  | (keywords, tag) :: rest =>
      if matches_group label keywords then tag
      else first_match rest label otherwise
  end.

End Vocabulary.

(* ================================================================== *)
(** ** Concrete runtime and models, for the examples *)

Module Demo.

Definition ascii_lower (c : char) : char :=
  if re_upper_AZ c then (c + 32)%N else c.

(** ASCII only: no further whitespace or word characters; lower-casing
    of the letters A-Z, as [str.lower] does on ASCII text. *)
#[export] Instance ascii_runtime : PythonRuntime := {|
  token := char;
  re_unicode_space := fun _ => false;
  re_unicode_word := fun _ => false;
  str_lower := map ascii_lower
|}.

(** One token per character that is not whitespace. *)
Definition char_tokenizer : Tokenizer := {|
  tokenize := filter (fun c => negb (re_space c));
  convert_tokens_to_string := fun tokens => tokens
|}.

Definition failing_summarizer : Summarizer :=
  fun _ _ _ _ => Raise (ModelError "out of memory").

Definition constant_summarizer : Summarizer :=
  fun _ _ _ _ => Ok [py "summary"].

(** Fails on the first call, answers afterwards. *)
Definition flaky_summarizer : Summarizer :=
  fun l _ _ _ =>
    if nonempty (summarizer_calls l) then Ok [py "summary"]
    else Raise (ModelError "out of memory").

Definition failing_classifier : Classifier :=
  fun _ _ => Raise (ModelError "out of memory").

(** Answers with the text it is given as the label. *)
Definition echo_classifier : Classifier := fun _ t => Ok [t].

Definition processor (c : option Classifier) (s : option Summarizer)
  : UrduLLMProcessor :=
  {| classifier := c; summarizer := s; tokenizer := char_tokenizer |}.

(** [n] times the character [c]. *)
Definition chars (n : nat) (c : string) : text :=
  concat (repeat (py c) n).

Definition newline : text := [NEWLINE].

(** A text of two tokens. *)
Definition short_text : text := py "ab".

(** One paragraph, one sentence, 200 tokens. *)
Definition medium_text : text := chars 200 "d".

(** A paragraph of two tokens, a blank line, and a paragraph of 802
    tokens in two sentences, of 2 and 800 tokens. *)
Definition long_second_paragraph : text := py "c. " ++ chars 800 "d".

Definition two_paragraphs : text :=
  py "ab" ++ newline ++ newline ++ long_second_paragraph.

(** Two paragraphs of 200 and 700 tokens, one sentence each. *)
Definition two_long_paragraphs : text :=
  chars 200 "a" ++ newline ++ newline ++ chars 700 "b".

End Demo.

(* ================================================================== *)
(** ** The rest of the class: [__init__], [initialize_models],
    [process_files] *)

(** [self.articles_path] *)
Definition articles_path : text :=
  py "C:\a_llm\urdu_article\ncpul_articles_archive".

(** [self.CATEGORY_MAP], a dict written as its items in source order. *)
Definition CATEGORY_MAP : list (text * text) :=
  [ (TAG_SPORTS, py "sports");
    (TAG_SCIENCE, py "science");
    (TAG_WORLD, py "world");
    (TAG_HEALTH, py "health");
    (TAG_ARTS, py "arts");
    (TAG_BUSINESS, py "business");
    (TAG_TECHNOLOGY, py "technology");
    (TAG_POLITICS, py "politics");
    (TAG_OTHER, py "other") ].

Fixpoint text_eqb (a b : text) : bool :=
  match a, b with
  | [], [] => true
  | x :: a', y :: b' => char_eqb x y && text_eqb a' b'
  | _, _ => false
  end.

(** [d.get(key, default)] *)
Fixpoint dict_get (d : list (text * text)) (key default : text) : text :=
  match d with
  | [] => default
  | (k, v) :: d' => if text_eqb k key then v else dict_get d' key default
  end.

(** [key in d] *)
Definition dict_has (d : list (text * text)) (key : text) : bool :=
  existsb (fun item => text_eqb (fst item) key) d.

(** [s.endswith(suffix)] *)
Definition endswith (s suffix : text) : bool :=
  startswith (rev s) (rev suffix).

Section Strings.
Context `{PythonRuntime}.

(** [s.lstrip()]: whitespace is what [str.isspace] accepts, the class
    [\s] of [re] on [str] patterns. *)
Fixpoint lstrip (s : text) : text :=
  match s with
  | [] => []
  | c :: s' => if re_space c then lstrip s' else s
  end.

(** [s.strip()] *)
Definition strip (s : text) : text := rev (lstrip (rev (lstrip s))).

End Strings.

(** One item of [results]. *)
Record row := {
  file_name : text;
  file_path : text;
  category_urdu : text;
  category_english : text;
  summary : text;
  text_length : Z;
  text_sample : text
}.

(** What [process_files] sees of the file system: [os.path.exists],
    [os.walk] (the root and the file names of each directory, in the order
    of the walk), [os.path.join], [os.path.relpath], and
    [open(path, 'r', encoding='utf-8').read()], which may raise. *)
Class FileSystem := {
  path_exists : text -> bool;
  walk : text -> list (text * list text);
  path_join : text -> text -> text;
  path_relpath : text -> text -> text;
  read_file : text -> result text
}.

Section Batch.
Context `{PythonRuntime} `{FileSystem}.

(** A call that returns or raises without touching the log. *)
Definition of_result {A : Type} (r : result A) : M A := fun l => (r, l).

(** [text[:100] + '...' if len(text) > 100 else text] *)
Definition sample_of (t : text) : text :=
  if len t >? 100 then firstn 100 t ++ py "..." else t.

(** Body of [for filename in files]; the state is [results] and
    [processed_files]. *)
Definition process_file (self : UrduLLMProcessor) (root filename : text)
    (state : list row * Z) : M (list row * Z) :=
  if endswith filename (py ".txt") then
    let filepath := path_join root filename in
    try_except
      (content <- of_result (read_file filepath) ;;
       let t := strip content in
       if negb (nonempty t) then ret state
       else
         category <- classify_text self t ;;
         summary <- summarize_text self t ;;
         ret (fst state
              ++ [ {| file_name := filename;
                      file_path := path_relpath filepath articles_path;
                      category_urdu := category;
                      category_english :=
                        dict_get CATEGORY_MAP category (py "other");
                      summary := summary;
                      text_length := len t;
                      text_sample := sample_of t |} ],
              snd state + 1))
      (fun _ => ret state)
  else ret state.

(** Body of [for root, _, files in os.walk(self.articles_path)]. *)
Definition process_directory (self : UrduLLMProcessor)
    (entry : text * list text) (state : list row * Z) : M (list row * Z) :=
  for_each (snd entry) (process_file self (fst entry)) state.

(** [process_files]; the data frame is the list of its rows. *)
Definition process_files (self : UrduLLMProcessor) : M (list row) :=
  if negb (path_exists articles_path) then ret []
  else
    state <- for_each (walk articles_path) (process_directory self) ([], 0) ;;
    ret (fst state).

End Batch.

(** The three model attributes as [__init__] and [initialize_models]
    see them: each is [None] until it is loaded. *)
Section Loading.
Context `{PythonRuntime}.

Record attributes := {
  attr_classifier : option Classifier;
  attr_summarizer : option Summarizer;
  attr_tokenizer : option Tokenizer
}.

(** The model attributes after [__init__]. *)
Definition __init__ : attributes :=
  {| attr_classifier := None; attr_summarizer := None;
     attr_tokenizer := None |}.

(** The three loading calls of [initialize_models], each of which may
    raise: [AutoTokenizer.from_pretrained], the text-classification
    [pipeline] (given the tokenizer) and the summarization [pipeline]. *)
Record ModelHub := {
  load_tokenizer : result Tokenizer;
  load_classifier : Tokenizer -> result Classifier;
  load_summarizer : result Summarizer
}.

(** [initialize_models]: the attributes afterwards and the returned
    Boolean.  The assignments made before an exception stay. *)
Definition initialize_models (hub : ModelHub) (self : attributes)
  : attributes * bool :=
  match load_tokenizer hub with
  | Raise _ => (self, false)
  | Ok tok =>
      let self1 :=
        {| attr_classifier := attr_classifier self;
           attr_summarizer := attr_summarizer self;
           attr_tokenizer := Some tok |} in
      match load_classifier hub tok with
      | Raise _ => (self1, false)
      | Ok model =>
          let self2 :=
            {| attr_classifier := Some model;
               attr_summarizer := attr_summarizer self1;
               attr_tokenizer := attr_tokenizer self1 |} in
          match load_summarizer hub with
          | Raise _ => (self2, false)
          | Ok summarizer_model =>
              ({| attr_classifier := attr_classifier self2;
                  attr_summarizer := Some summarizer_model;
                  attr_tokenizer := attr_tokenizer self2 |}, true)
          end
      end
  end.

(** The processor the public methods run on, once the tokenizer is there. *)
Definition loaded (self : attributes) : option UrduLLMProcessor :=
  match attr_tokenizer self with
  | None => None
  | Some tok =>
      Some {| classifier := attr_classifier self;
              summarizer := attr_summarizer self;
              tokenizer := tok |}
  end.

End Loading.

(** Vocabulary of the further properties. *)
Section MoreVocabulary.
Context `{PythonRuntime}.
Variable self : UrduLLMProcessor.

(** Every group but the last is followed by a group whose first unit did
    not fit beside it. *)
Fixpoint closed_when_full (groups : list (list text)) : Prop :=
  match groups with
  | [] => True
  | g :: rest =>
      match rest with
      | (u :: _) :: _ =>
          total_tokens self g + token_count self u > MAX_SUMMARIZATION_TOKENS
      | _ => True
      end
      /\ closed_when_full rest
  end.

(** The packing invariant with the reason for each closing. *)
Definition packed_full (units : list text) (st : packer) : Prop :=
  exists groups,
    chunks st = map (join [SPACE]) groups
    /\ concat groups ++ current_chunk st = units
    /\ current_length st = total_tokens self (current_chunk st)
    /\ (current_chunk st = [] -> groups = [])
    /\ closed_when_full (groups ++ [current_chunk st]).

(** One of the characters after which a sentence may end. *)
Definition is_terminator (c : char) : bool :=
  char_eqb c FULL_STOP || char_eqb c QUESTION_MARK
  || char_eqb c EXCLAMATION_MARK.

(** A piece holds no match of [\n\s*\n]. *)
Definition no_blank_line (piece : text) : Prop :=
  forall a b, piece = a ++ NEWLINE :: b -> match_space_newline b = None.

End MoreVocabulary.

(** A piece ends with '.', '?' or '!'. *)
Definition ends_with_terminator (piece : text) : Prop :=
  exists body c, piece = body ++ [c] /\ is_terminator c = true.

Section CallVocabulary.
Context `{PythonRuntime}.
Variable self : UrduLLMProcessor.

(** The classifier calls of a log, in order. *)
Definition is_classify (e : event) : bool :=
  match e with Classify _ => true | _ => false end.

Definition classifier_calls (l : log) : log := filter is_classify l.

(** A summarizer call that respects the limits of [_safe_summarize]: the
    text has at least [MIN_CHUNK_LENGTH] tokens, the maximum length is at
    most [MAX_SUMMARY_LENGTH] and at most the token count of the text, and
    the minimum length is below the maximum. *)
Definition call_within_limits (e : event) : Prop :=
  match e with
  | Summarize t max_length min_length =>
      MIN_CHUNK_LENGTH <= token_count self t
      /\ max_length <= MAX_SUMMARY_LENGTH
      /\ max_length <= token_count self t
      /\ min_length < max_length
  | _ => True
  end.

(** The summary kept from an answer of the summarizer: the first item,
    unless the call raised, returned nothing or returned the empty string. *)
Definition kept_summary (answer : result (list text)) : list text :=
  match answer with
  | Ok ((c :: s) :: _) => [c :: s]
  | _ => []
  end.

(** The summaries kept from the chunks, in order, when the summarizer
    answers [answer c max_length min_length] for chunk [c] and the bounds
    are those for [chunk_count] chunks. *)
Definition summaries_of (answer : text -> Z -> Z -> result (list text))
    (chunk_count : Z) (chunks : list text) : list text :=
  flat_map
    (fun c =>
       let actual_max :=
         clamp_max (chunk_max_length chunk_count) (token_count self c) in
       let actual_min :=
         clamp_min (chunk_min_length chunk_count) actual_max in
       kept_summary (answer c actual_max actual_min))
    chunks.

End CallVocabulary.

Section BatchVocabulary.
Context `{PythonRuntime} `{FileSystem}.

(** The files of the walk, each with the root of its directory, in the
    order in which [process_files] meets them. *)
Definition walked_files : list (text * text) :=
  flat_map (fun entry => map (pair (fst entry)) (snd entry))
    (walk articles_path).

(** A file that [process_files] turns into a row when both models are
    loaded: its name ends in [.txt], it can be read, and its content is not
    blank. *)
Definition processable (file : text * text) : bool :=
  endswith (snd file) (py ".txt")
  && match read_file (path_join (fst file) (snd file)) with
     | Ok content => nonempty (strip content)
     | Raise _ => false
     end.

(** What holds of every row of the result. *)
Definition row_ok (r : row) : Prop :=
  endswith (file_name r) (py ".txt") = true
  /\ 0 < text_length r
  /\ (text_length r <= 100 -> len (text_sample r) = text_length r)
  /\ (100 < text_length r -> len (text_sample r) = 103)
  /\ dict_has CATEGORY_MAP (category_urdu r) = true
  /\ (forall default,
         category_english r = dict_get CATEGORY_MAP (category_urdu r) default)
  /\ summary r <> [].

End BatchVocabulary.

Section BatchOutcome.
Context `{PythonRuntime} `{FileSystem}.
Variable self : UrduLLMProcessor.

(** How the state of [process_files] has moved once [files] have been
    met: rows were appended, each of them well formed; none if a model is
    missing; one per processable file, in order, if both are loaded. *)
Definition batch_outcome (files : list (text * text))
    (before after : list row * Z) : Prop :=
  exists rows,
    fst after = fst before ++ rows
    /\ snd after = snd before + len rows
    /\ Forall row_ok rows
    /\ (classifier self = None \/ summarizer self = None -> rows = [])
    /\ (classifier self <> None -> summarizer self <> None ->
        map file_name rows = map snd (filter processable files)).

End BatchOutcome.

(** Concrete files and loaders, for the examples. *)
Module DemoBatch.
Import Demo.

(** Two directories: a text file, a file that is not a text file, a blank
    text file, a text file that cannot be decoded, and a text file in a
    sub-directory. *)
#[export] Instance two_directories : FileSystem := {|
  path_exists := fun _ => true;
  walk := fun _ =>
    [ (py "root",
       [py "a.txt"; py "notes.md"; py "blank.txt"; py "broken.txt"]);
      (py "root/sub", [py "b.txt"]) ];
  path_join := fun a b => a ++ py "/" ++ b;
  path_relpath := fun p _ => p;
  read_file := fun p =>
    if text_eqb p (py "root/a.txt") then Ok (py "  SPORTS news ")
    else if text_eqb p (py "root/notes.md") then Ok (py "notes")
    else if text_eqb p (py "root/blank.txt") then Ok (py "   ")
    else if text_eqb p (py "root/sub/b.txt") then Ok (py "tech")
    else Raise (ValueError "invalid start byte")
|}.

(** The same files with the articles directory missing. *)
Definition no_directory : FileSystem := {|
  path_exists := fun _ => false;
  walk := @walk two_directories;
  path_join := @path_join two_directories;
  path_relpath := @path_relpath two_directories;
  read_file := @read_file two_directories
|}.

(** A hub whose summarization pipeline fails to load. *)
Definition hub_without_summarizer : ModelHub := {|
  load_tokenizer := Ok char_tokenizer;
  load_classifier := fun _ => Ok echo_classifier;
  load_summarizer := Raise (ModelError "download failed")
|}.

Definition full_hub : ModelHub := {|
  load_tokenizer := Ok char_tokenizer;
  load_classifier := fun _ => Ok echo_classifier;
  load_summarizer := Ok constant_summarizer
|}.

(** An Urdu sentence, ended by the Urdu full stop. *)
Definition urdu_sentence : text := py "یہ اردو متن ہے۔".

End DemoBatch.

(* ================================================================== *)
(** ** Running the monad *)

Section RunLemmas.
Context `{PythonRuntime}.

Lemma run_ret {A} (a : A) (l : log) : run (ret a) l = (Ok a, l).
Proof. reflexivity. Qed.

Lemma run_raise_eq {A} (e : exn) (l : log) :
  run (raise e : M A) l = (Raise e, l).
Proof. reflexivity. Qed.

Lemma run_bind {A B} (m : M A) (k : A -> M B) (l : log) :
  run (x <- m ;; k x) l =
  match run m l with
  | (Ok a, l') => run (k a) l'
  | (Raise e, l') => (Raise e, l')
  end.
Proof. reflexivity. Qed.

Lemma run_tokenize (self : UrduLLMProcessor) (t : text) (l : log) :
  run (tokenizer_tokenize self t) l =
  (Ok (tokenize (tokenizer self) t), l ++ [Tokenize t]).
Proof. reflexivity. Qed.

End RunLemmas.

(* ================================================================== *)
(** ** The chunk packer *)

Section Packer.
Context `{PythonRuntime}.
Variable self : UrduLLMProcessor.


Lemma total_tokens_app (a b : list text) :
  total_tokens self (a ++ b) = total_tokens self a + total_tokens self b.
Proof.
  induction a as [|u a IH]; simpl; [reflexivity|].
  rewrite IH. lia.
Qed.

Lemma pack_all_app (a b : list text) (st : packer) :
  pack_all self (a ++ b) st = pack_all self b (pack_all self a st).
Proof. unfold pack_all. apply fold_left_app. Qed.

(** The sentence loop is the fold, and tokenizes each sentence once. *)
Lemma run_sentences (sentences : list text) (st : packer) (l : log) :
  run (for_each sentences (pack_sentence self) st) l =
  (Ok (pack_all self sentences st), l ++ map Tokenize sentences).
Proof.
  revert st l.
  induction sentences as [|s rest IH]; intros st l; simpl.
  - rewrite run_ret, app_nil_r. reflexivity.
  - rewrite run_bind. unfold pack_sentence at 1.
    rewrite run_bind, run_tokenize, run_ret, IH.
    rewrite <- app_assoc. reflexivity.
Qed.

Lemma run_paragraph (para : text) (st : packer) (l : log) :
  run (pack_paragraph self para st) l =
  (Ok (pack_all self (paragraph_units self para) st),
   l ++ paragraph_log self para).
Proof.
  unfold pack_paragraph, paragraph_units, paragraph_log.
  rewrite run_bind, run_tokenize. fold (token_count self para).
  destruct (token_count self para >? MAX_SUMMARIZATION_TOKENS).
  - rewrite run_sentences, <- app_assoc. reflexivity.
  - rewrite run_ret. reflexivity.
Qed.

Lemma run_paragraphs (paragraphs : list text) (st : packer) (l : log) :
  run (for_each paragraphs (pack_paragraph self) st) l =
  (Ok (pack_all self (flat_map (paragraph_units self) paragraphs) st),
   l ++ flat_map (paragraph_log self) paragraphs).
Proof.
  revert st l.
  induction paragraphs as [|p rest IH]; intros st l; simpl.
  - rewrite run_ret, app_nil_r. reflexivity.
  - rewrite run_bind, run_paragraph, IH, pack_all_app, <- app_assoc.
    reflexivity.
Qed.

(** [_chunk_text_for_summarization] always returns: it packs the
    structural units of the text from the empty state and flushes. *)
Lemma run_chunk_text (t : text) (l : log) :
  run (_chunk_text_for_summarization self t) l =
  (Ok (chunk_texts self t), l ++ chunking_log self t).
Proof.
  unfold _chunk_text_for_summarization, chunk_texts, structural_units,
    chunking_log.
  destruct (len (re_split_paragraphs t) >? 1).
  - rewrite run_bind, run_paragraphs, run_ret. reflexivity.
  - rewrite run_bind, run_sentences, run_ret. reflexivity.
Qed.

End Packer.

Section PackerInvariant.
Context `{PythonRuntime}.
Variable self : UrduLLMProcessor.


Lemma within_budget_single (u : text) : within_budget self [u].
Proof.
  destruct (Z.le_gt_cases (token_count self u) MAX_SUMMARIZATION_TOKENS) as [Hle|Hgt].
  - left. simpl. lia.
  - right. exists u. split; [reflexivity | lia].
Qed.

Lemma packed_start : packed self [] packer_start.
Proof.
  exists []. simpl. repeat split; auto.
  left. simpl. unfold MAX_SUMMARIZATION_TOKENS. lia.
Qed.

(** One unit more. *)
Lemma packed_step (units : list text) (st : packer) (u : text) :
  packed self units st -> packed self (units ++ [u]) (pack u (token_count self u) st).
Proof.
  intros (groups & Hchunks & Hgroups & Hunits & Hlen & Hopen).
  unfold pack.
  destruct (Z.gtb_spec (current_length st + token_count self u)
              MAX_SUMMARIZATION_TOKENS) as [Hover|Hfits].
  - (* the unit does not fit: the open chunk is closed *)
    unfold flush. destruct (current_chunk st) as [|c cs] eqn:Hcur; simpl.
    + exists groups. simpl. repeat split; auto.
      * rewrite <- Hunits, app_nil_r. reflexivity.
      * lia.
      * apply within_budget_single.
    + exists (groups ++ [c :: cs]). simpl. repeat split.
      * rewrite Hchunks, map_app. reflexivity.
      * apply Forall_app. split; [exact Hgroups|].
        constructor; [|constructor]. split; [discriminate | exact Hopen].
      * rewrite concat_app. simpl. rewrite app_nil_r, <- Hunits.
        rewrite <- app_assoc. reflexivity.
      * lia.
      * apply within_budget_single.
  - (* the unit fits: it joins the open chunk *)
    exists groups. simpl. repeat split; auto.
    + rewrite app_assoc, Hunits. reflexivity.
    + rewrite total_tokens_app. simpl. lia.
    + left. rewrite total_tokens_app. simpl. lia.
Qed.

Lemma packed_all (later : list text) (units : list text) (st : packer) :
  packed self units st -> packed self (units ++ later) (pack_all self later st).
Proof.
  revert units st.
  induction later as [|u later IH]; intros units st Hst; simpl.
  - rewrite app_nil_r. exact Hst.
  - replace (units ++ u :: later) with ((units ++ [u]) ++ later)
      by (rewrite <- app_assoc; reflexivity).
    apply IH, packed_step, Hst.
Qed.

(** After the final flush: the chunks are the joins of groups that
    partition the units, every group non-empty and within the budget. *)
Lemma packed_flush (units : list text) (st : packer) :
  packed self units st ->
  exists groups,
    flush (chunks st) (current_chunk st) = map (join [SPACE]) groups
    /\ Forall (fun g => g <> [] /\ within_budget self g) groups
    /\ concat groups = units.
Proof.
  intros (groups & Hchunks & Hgroups & Hunits & _ & Hopen).
  unfold flush. destruct (current_chunk st) as [|c cs] eqn:Hcur; simpl.
  - exists groups. rewrite app_nil_r in Hunits. auto.
  - exists (groups ++ [c :: cs]). repeat split.
    + rewrite Hchunks, map_app. reflexivity.
    + apply Forall_app. split; [exact Hgroups|].
      constructor; [|constructor]. split; [discriminate | exact Hopen].
    + rewrite concat_app. simpl. rewrite app_nil_r. exact Hunits.
Qed.

(** The packer on a whole text. *)
Lemma chunk_text_groups (t : text) (l : log) :
  exists groups,
    run (_chunk_text_for_summarization self t) l =
      (Ok (map (join [SPACE]) groups), l ++ chunking_log self t)
    /\ Forall (fun g => g <> [] /\ within_budget self g) groups
    /\ concat groups = structural_units self t.
Proof.
  destruct (packed_flush (structural_units self t)
              (pack_all self (structural_units self t) packer_start))
    as (groups & Hflush & Hgroups & Hunits).
  - apply (packed_all (structural_units self t) [] packer_start), packed_start.
  - exists groups. rewrite run_chunk_text. unfold chunk_texts.
    rewrite Hflush. auto.
Qed.

End PackerInvariant.

(* ================================================================== *)
(** ** The splitter: pieces and text *)

Section Splitter.
Context `{PythonRuntime}.

Lemma re_space_newline (c : char) : char_eqb c NEWLINE = true -> re_space c = true.
Proof.
  unfold char_eqb. intros E. apply N.eqb_eq in E. subst c. reflexivity.
Qed.

Lemma whitespace_nil : whitespace [].
Proof. reflexivity. Qed.

Lemma whitespace_space : whitespace [SPACE].
Proof. reflexivity. Qed.

Lemma whitespace_cons (c : char) (sep : text) :
  re_space c = true -> whitespace sep -> whitespace (c :: sep).
Proof. unfold whitespace. simpl. intros -> ->. reflexivity. Qed.

Lemma separated_nonempty (units : list text) (t : text) :
  separated units t -> units <> [].
Proof. intros S. destruct S; discriminate. Qed.

Lemma separated_cons_head (c : char) (pieces : list text) (t : text) :
  separated pieces t -> separated (cons_head c pieces) (c :: t).
Proof.
  intros S. destruct S as [u | u sep units t Hsep S]; simpl.
  - constructor.
  - change (c :: u ++ sep ++ t) with ((c :: u) ++ sep ++ t).
    constructor; assumption.
Qed.

Lemma separated_app (units1 units2 : list text) (t1 sep t2 : text) :
  separated units1 t1 -> whitespace sep -> separated units2 t2 ->
  separated (units1 ++ units2) (t1 ++ sep ++ t2).
Proof.
  intros S1 Hsep S2.
  induction S1 as [u | u sep1 units t Hsep1 S1 IH]; simpl.
  - constructor; assumption.
  - rewrite <- !app_assoc. constructor; [exact Hsep1 | exact IH].
Qed.

(** Replacing every unit by pieces of its own keeps the text. *)
Lemma separated_flat_map (f : text -> list text) (units : list text) (t : text) :
  (forall u, separated (f u) u) ->
  separated units t -> separated (flat_map f units) t.
Proof.
  intros Hf S.
  induction S as [u | u sep units t Hsep S IH]; simpl.
  - rewrite app_nil_r. apply Hf.
  - apply separated_app; auto.
Qed.

(** What [\s*\n] matches is whitespace inside the text. *)
Lemma match_space_newline_whitespace (s : text) (n : nat) :
  match_space_newline s = Some n -> whitespace (firstn n s).
Proof.
  revert n. induction s as [|c s IH]; intros n; simpl; [discriminate|].
  destruct (re_space c) eqn:Hc; [|discriminate].
  destruct (match_space_newline s) as [k|].
  - intros E. injection E as <-. simpl.
    apply whitespace_cons; [exact Hc | apply IH; reflexivity].
  - destruct (char_eqb c NEWLINE); [|discriminate].
    intros E. injection E as <-. simpl.
    apply whitespace_cons; [exact Hc | destruct s; reflexivity].
Qed.

Lemma split_paragraphs_from_separated (s : text) (skip : nat) :
  separated (split_paragraphs_from skip s) (skipn skip s).
Proof.
  revert skip. induction s as [|c s IH]; intros skip.
  - destruct skip; constructor.
  - destruct skip as [|k]; simpl; [|apply IH].
    pose proof (IH 0%nat) as IH0. simpl in IH0.
    destruct (char_eqb c NEWLINE) eqn:Hc;
      [|apply separated_cons_head, IH0].
    destruct (match_space_newline s) as [n|] eqn:Hm;
      [|apply separated_cons_head, IH0].
    rewrite <- (firstn_skipn n s) at 2.
    change (c :: firstn n s ++ skipn n s)
      with ([] ++ (c :: firstn n s) ++ skipn n s).
    constructor; [|apply IH].
    apply whitespace_cons;
      [apply re_space_newline, Hc
      | apply match_space_newline_whitespace, Hm].
Qed.

(** The paragraphs of a text, with whitespace between them, are the text. *)
Lemma re_split_paragraphs_separated (s : text) :
  separated (re_split_paragraphs s) s.
Proof. apply (split_paragraphs_from_separated s 0). Qed.

Lemma split_sentences_from_separated (s before : text) :
  separated (split_sentences_from before s) s.
Proof.
  revert before. induction s as [|c s IH]; intros before; simpl.
  - constructor.
  - destruct (sentence_break before c) eqn:Hb.
    + change (c :: s) with ([] ++ [c] ++ s).
      constructor; [|apply IH].
      unfold sentence_break in Hb.
      apply andb_prop in Hb. destruct Hb as [_ Hc].
      apply whitespace_cons; [exact Hc | reflexivity].
    + apply separated_cons_head, IH.
Qed.

(** The sentences of a text, with one whitespace character between
    them, are the text. *)
Lemma re_split_sentences_separated (s : text) :
  separated (re_split_sentences s) s.
Proof. apply split_sentences_from_separated. Qed.

Lemma join_separated (units : list text) :
  units <> [] -> separated units (join [SPACE] units).
Proof.
  induction units as [|u units IH]; intros Hne; [contradiction|].
  destruct units as [|v units].
  - constructor.
  - change (join [SPACE] (u :: v :: units))
      with (u ++ [SPACE] ++ join [SPACE] (v :: units)).
    constructor; [apply whitespace_space | apply IH; discriminate].
Qed.

(** Chunk texts put end to end: the units of all groups, separated. *)
Lemma concat_join_separated (groups : list (list text)) :
  groups <> [] -> Forall (fun g => g <> []) groups ->
  separated (concat groups) (concat (map (join [SPACE]) groups)).
Proof.
  induction groups as [|g groups IH]; intros Hne Hall; [contradiction|].
  inversion Hall as [|? ? Hg Hrest]; subst.
  destruct groups as [|g2 groups].
  - simpl. rewrite !app_nil_r. apply join_separated, Hg.
  - change (concat (g :: g2 :: groups)) with (g ++ concat (g2 :: groups)).
    change (concat (map (join [SPACE]) (g :: g2 :: groups)))
      with (join [SPACE] g ++ [] ++ concat (map (join [SPACE]) (g2 :: groups))).
    apply separated_app.
    + apply join_separated, Hg.
    + apply whitespace_nil.
    + apply IH; [discriminate | exact Hrest].
Qed.

End Splitter.

Section SplitterUnits.
Context `{PythonRuntime}.
Variable self : UrduLLMProcessor.

Lemma paragraph_units_separated (para : text) :
  separated (paragraph_units self para) para.
Proof.
  unfold paragraph_units.
  destruct (token_count self para >? MAX_SUMMARIZATION_TOKENS).
  - apply re_split_sentences_separated.
  - constructor.
Qed.

(** The structural units of a text, with whitespace between them, are
    the text. *)
Lemma structural_units_separated (t : text) :
  separated (structural_units self t) t.
Proof.
  unfold structural_units.
  destruct (len (re_split_paragraphs t) >? 1).
  - apply separated_flat_map.
    + apply paragraph_units_separated.
    + apply re_split_paragraphs_separated.
  - apply re_split_sentences_separated.
Qed.

End SplitterUnits.

(* ================================================================== *)
(** ** Properties of the chunk packer *)

Section PackerProperties.
Context `{PythonRuntime}.
Variable self : UrduLLMProcessor.

(** C1 (packing budget invariant).  For every text,
    [_chunk_text_for_summarization] returns chunks that are the joins of
    groups of structural units, the groups partitioning the units of the
    text in order, and every group either has an accumulated token count
    of at most [MAX_SUMMARIZATION_TOKENS] or is exactly one unit whose own
    token count exceeds [MAX_SUMMARIZATION_TOKENS]. *)
Theorem packing_budget_invariant (t : text) (l : log) :
  exists groups l',
    run (_chunk_text_for_summarization self t) l =
      (Ok (map (join [SPACE]) groups), l')
    /\ concat groups = structural_units self t
    /\ Forall
         (fun group =>
            total_tokens self group <= MAX_SUMMARIZATION_TOKENS
            \/ exists u,
                 group = [u]
                 /\ token_count self u > MAX_SUMMARIZATION_TOKENS)
         groups.
Proof.
  destruct (chunk_text_groups self t l) as (groups & Hrun & Hgroups & Hunits).
  exists groups, (l ++ chunking_log self t).
  repeat split; [exact Hrun | exact Hunits |].
  eapply Forall_impl; [|exact Hgroups].
  intros g [_ Hg]. exact Hg.
Qed.

(** C4 (no loss, order preservation).  For every text, the chunks are the
    joins of non-empty groups of structural units whose concatenation is
    the list of units of the text, so every unit is in exactly one chunk
    and in order; the text is these units with whitespace between them,
    and so is the concatenation of the chunk texts in emission order. *)
Theorem chunks_partition_units_in_order (t : text) (l : log) :
  exists groups l',
    run (_chunk_text_for_summarization self t) l =
      (Ok (map (join [SPACE]) groups), l')
    /\ Forall (fun group => group <> []) groups
    /\ concat groups = structural_units self t
    /\ separated (structural_units self t) t
    /\ separated (structural_units self t)
         (concat (map (join [SPACE]) groups)).
Proof.
  destruct (chunk_text_groups self t l) as (groups & Hrun & Hgroups & Hunits).
  pose proof (structural_units_separated self t) as Hsep.
  assert (Hne : Forall (fun group => group <> []) groups).
  { eapply Forall_impl; [|exact Hgroups]. intros g [Hg _]. exact Hg. }
  exists groups, (l ++ chunking_log self t).
  repeat split; auto.
  rewrite <- Hunits. apply concat_join_separated; [|exact Hne].
  intros ->. simpl in Hunits.
  apply separated_nonempty in Hsep. congruence.
Qed.

End PackerProperties.

Section OpenChunk.
Context `{PythonRuntime}.
Variable self : UrduLLMProcessor.


Lemma pack_fits (u : text) (n : Z) (st : packer) :
  current_length st + n <= MAX_SUMMARIZATION_TOKENS ->
  pack u n st =
  {| chunks := chunks st;
     current_chunk := current_chunk st ++ [u];
     current_length := current_length st + n |}.
Proof.
  intros Hfit. unfold pack.
  destruct (Z.gtb_spec (current_length st + n) MAX_SUMMARIZATION_TOKENS);
    [lia | reflexivity].
Qed.

(** Chunks already closed stay where they are. *)
Lemma closed_chunks_stay (units : list text) (st : packer) :
  exists extra,
    flush (chunks (pack_all self units st)) (current_chunk (pack_all self units st)) =
    chunks st ++ extra.
Proof.
  revert st. induction units as [|u units IH]; intros st; simpl.
  - unfold flush. destruct (nonempty (current_chunk st)).
    + eexists. reflexivity.
    + exists []. rewrite app_nil_r. reflexivity.
  - destruct (IH (pack u (token_count self u) st)) as [extra Hextra].
    rewrite Hextra. unfold pack.
    destruct (current_length st + token_count self u >? MAX_SUMMARIZATION_TOKENS);
      simpl.
    + unfold flush. destruct (nonempty (current_chunk st)).
      * rewrite <- app_assoc. eexists. reflexivity.
      * eexists. reflexivity.
    + eexists. reflexivity.
Qed.

(** While nothing has been closed, the first chunk to come out starts
    with the units of the open chunk. *)
Lemma open_chunk_comes_first (units : list text) (st : packer) :
  chunks st = [] -> current_chunk st <> [] ->
  exists more others,
    flush (chunks (pack_all self units st)) (current_chunk (pack_all self units st)) =
    join [SPACE] (current_chunk st ++ more) :: others.
Proof.
  revert st. induction units as [|u units IH]; intros st Hnone Hopen; simpl.
  - exists [], []. rewrite app_nil_r, Hnone. unfold flush.
    destruct (current_chunk st); [contradiction | reflexivity].
  - destruct (current_length st + token_count self u >? MAX_SUMMARIZATION_TOKENS)
      eqn:Hover.
    + destruct (closed_chunks_stay units (pack u (token_count self u) st))
        as [extra Hextra].
      rewrite Hextra. unfold pack. rewrite Hover. simpl.
      rewrite Hnone. unfold flush.
      destruct (current_chunk st) as [|c cs]; [contradiction|].
      exists [], extra. rewrite app_nil_r. reflexivity.
    + destruct (IH (pack u (token_count self u) st)) as (more & others & Hmore).
      * unfold pack. rewrite Hover. exact Hnone.
      * unfold pack. rewrite Hover. simpl.
        destruct (current_chunk st); discriminate.
      * rewrite Hmore. unfold pack. rewrite Hover. simpl.
        exists (u :: more), others. rewrite <- app_assoc. reflexivity.
Qed.

(** C5, as the code has it.  A paragraph is split into sentences exactly
    when its own token count exceeds [MAX_SUMMARIZATION_TOKENS], whatever
    the accumulator holds, and its sentences are packed into the
    accumulator as it stands; so when a paragraph within the limit is
    followed by a paragraph over the limit whose first sentence still fits
    beside it, the first chunk holds the whole paragraph and that
    sentence together. *)
Theorem long_paragraph_continues_open_chunk
    (t para p1 p2 s1 : text) (rest sentences : list text) (st : packer)
    (l : log) :
  (token_count self para > MAX_SUMMARIZATION_TOKENS ->
   run (pack_paragraph self para st) l =
   run (for_each (re_split_sentences para) (pack_sentence self) st)
     (l ++ [Tokenize para]))
  /\ (token_count self para <= MAX_SUMMARIZATION_TOKENS ->
      run (pack_paragraph self para st) l =
      (Ok (pack para (token_count self para) st), l ++ [Tokenize para]))
  /\ (re_split_paragraphs t = p1 :: p2 :: rest ->
      token_count self p1 <= MAX_SUMMARIZATION_TOKENS ->
      token_count self p2 > MAX_SUMMARIZATION_TOKENS ->
      re_split_sentences p2 = s1 :: sentences ->
      token_count self p1 + token_count self s1 <= MAX_SUMMARIZATION_TOKENS ->
      exists more others l',
        run (_chunk_text_for_summarization self t) l =
        (Ok (join [SPACE] (p1 :: s1 :: more) :: others), l')).
Proof.
  split; [|split].
  - intros Hlong. unfold pack_paragraph.
    rewrite run_bind, run_tokenize. fold (token_count self para).
    destruct (Z.gtb_spec (token_count self para) MAX_SUMMARIZATION_TOKENS);
      [reflexivity | lia].
  - intros Hshort. unfold pack_paragraph.
    rewrite run_bind, run_tokenize. fold (token_count self para).
    destruct (Z.gtb_spec (token_count self para) MAX_SUMMARIZATION_TOKENS);
      [lia | reflexivity].
  - intros Hparas Hp1 Hp2 Hsents Hfit.
    assert (Hunits : structural_units self t =
                     p1 :: s1 :: sentences
                     ++ flat_map (paragraph_units self) rest).
    { unfold structural_units. rewrite Hparas.
      replace (len (p1 :: p2 :: rest) >? 1) with true
        by (symmetry; apply Z.gtb_lt; unfold len; simpl length; lia).
      simpl flat_map. unfold paragraph_units at 1 2.
      destruct (Z.gtb_spec (token_count self p1) MAX_SUMMARIZATION_TOKENS); [lia|].
      destruct (Z.gtb_spec (token_count self p2) MAX_SUMMARIZATION_TOKENS); [|lia].
      rewrite Hsents. reflexivity. }
    set (st2 := pack s1 (token_count self s1)
                  (pack p1 (token_count self p1) packer_start)).
    assert (Hst2 : chunks st2 = [] /\ current_chunk st2 = [p1; s1]).
    { unfold st2.
      rewrite (pack_fits p1) by (simpl; lia).
      rewrite pack_fits by (simpl; lia).
      split; reflexivity. }
    destruct Hst2 as [Hnone Hopen].
    destruct (open_chunk_comes_first
                (sentences ++ flat_map (paragraph_units self) rest) st2)
      as (more & others & Hfirst).
    + exact Hnone.
    + rewrite Hopen. discriminate.
    + rewrite run_chunk_text. unfold chunk_texts. rewrite Hunits.
      change (pack_all self
                (p1 :: s1 :: sentences
                 ++ flat_map (paragraph_units self) rest)
                packer_start)
        with (pack_all self (sentences ++ flat_map (paragraph_units self) rest)
                st2).
      cbv zeta. rewrite Hfirst, Hopen.
      exists more, others. eexists. reflexivity.
Qed.

End OpenChunk.

(* ================================================================== *)
(** ** The safe summariser wrapper and the orchestrator *)

Section SummarizerLemmas.
Context `{PythonRuntime}.
Variable self : UrduLLMProcessor.


(** The clamps alone keep [actual_min] below [actual_max]. *)
Lemma clamp_min_below (min_length actual_max : Z) :
  clamp_min min_length actual_max < actual_max.
Proof. unfold clamp_min. lia. Qed.

Lemma reset_min_idle (min_length actual_max : Z) :
  reset_min (clamp_min min_length actual_max) actual_max =
  clamp_min min_length actual_max.
Proof.
  unfold reset_min. pose proof (clamp_min_below min_length actual_max).
  destruct (Z.geb_spec (clamp_min min_length actual_max) actual_max);
    [lia | reflexivity].
Qed.

(** Everything [_safe_summarize] does. *)
Lemma run_safe_summarize (t : text) (max_length min_length : Z) (l : log) :
  run (_safe_summarize self t max_length min_length) l =
  if token_count self t <? MIN_CHUNK_LENGTH then (Ok None, l ++ [Tokenize t])
  else
    match summarizer self with
    | None => (Ok None, l ++ [Tokenize t])
    | Some model =>
        let actual_max := clamp_max max_length (token_count self t) in
        let actual_min :=
          reset_min (clamp_min min_length actual_max) actual_max in
        (Ok (summary_of (model (l ++ [Tokenize t]) t actual_max actual_min)),
         (l ++ [Tokenize t]) ++ [summarizer_call self max_length min_length t])
    end.
Proof.
  unfold _safe_summarize. rewrite run_bind, run_tokenize.
  fold (token_count self t).
  destruct (token_count self t <? MIN_CHUNK_LENGTH); [reflexivity|].
  unfold try_except, call_summarizer, run, bind.
  destruct (summarizer self) as [model|]; [|reflexivity].
  cbv zeta. unfold summarizer_call. fold (token_count self t).
  destruct (model (l ++ [Tokenize t]) t
              (clamp_max max_length (token_count self t))
              (reset_min
                 (clamp_min min_length (clamp_max max_length (token_count self t)))
                 (clamp_max max_length (token_count self t))))
    as [[|item rest]|e]; reflexivity.
Qed.

(** [_safe_summarize] never raises. *)
Lemma safe_summarize_returns (t : text) (max_length min_length : Z)
    (l : log) :
  exists summary l',
    run (_safe_summarize self t max_length min_length) l = (Ok summary, l').
Proof.
  rewrite run_safe_summarize.
  destruct (token_count self t <? MIN_CHUNK_LENGTH); [eauto|].
  destruct (summarizer self); eauto.
Qed.

Lemma summarizer_calls_app (a b : log) :
  summarizer_calls (a ++ b) = summarizer_calls a ++ summarizer_calls b.
Proof. apply filter_app. Qed.

Lemma summarizer_calls_tokenize (texts : list text) :
  summarizer_calls (map Tokenize texts) = [].
Proof. induction texts; simpl; auto. Qed.

Lemma summarizer_calls_paragraph_log (para : text) :
  summarizer_calls (paragraph_log self para) = [].
Proof.
  unfold paragraph_log. simpl.
  destruct (_ >? _); [apply summarizer_calls_tokenize | reflexivity].
Qed.

(** The packer calls the tokenizer only. *)
Lemma summarizer_calls_chunking_log (t : text) :
  summarizer_calls (chunking_log self t) = [].
Proof.
  unfold chunking_log. destruct (_ >? _).
  - induction (re_split_paragraphs t) as [|p ps IH]; [reflexivity|].
    change (flat_map (paragraph_log self) (p :: ps))
      with (paragraph_log self p ++ flat_map (paragraph_log self) ps).
    rewrite summarizer_calls_app, summarizer_calls_paragraph_log, IH.
    reflexivity.
  - apply summarizer_calls_tokenize.
Qed.

(** The list comprehension that selects the viable chunks. *)
Lemma run_viable_filter (chunks : list text) (l : log) :
  run (comprehension_if chunks
         (fun chunk =>
            chunk_tokens <- tokenizer_tokenize self chunk ;;
            ret (len chunk_tokens >=? MIN_CHUNK_LENGTH))) l =
  (Ok (filter (viable self) chunks), l ++ map Tokenize chunks).
Proof.
  revert l. induction chunks as [|c chunks IH]; intros l; simpl.
  - rewrite run_ret, app_nil_r. reflexivity.
  - rewrite run_bind, run_bind, run_tokenize, run_ret, run_bind, IH, run_ret.
    rewrite <- app_assoc. reflexivity.
Qed.

(** The loop over the viable chunks: it never raises, and it calls the
    summarizer once for each chunk, in order, whatever the answers. *)
Lemma run_summarize_chunks (model : Summarizer) (all chunks : list text)
    (summaries : list text) (l : log) :
  summarizer self = Some model ->
  Forall (fun c => viable self c = true) chunks ->
  exists summaries' l',
    run (for_each chunks (summarize_chunk self all) summaries) l =
      (Ok summaries', l')
    /\ summarizer_calls l' =
       summarizer_calls l
       ++ map (summarizer_call self (chunk_max_length (len all))
                 (chunk_min_length (len all))) chunks.
Proof.
  intros Hmodel Hviable. revert summaries l.
  induction Hviable as [|c chunks Hc Hrest IH]; intros summaries l; simpl.
  - exists summaries, l. rewrite run_ret, app_nil_r. auto.
  - rewrite run_bind. unfold summarize_chunk at 1.
    rewrite run_bind, run_safe_summarize, Hmodel.
    unfold viable in Hc. fold (token_count self c) in Hc.
    destruct (Z.ltb_spec (token_count self c) MIN_CHUNK_LENGTH) as [Hlt|_].
    { apply Z.geb_le in Hc. lia. }
    cbv beta iota zeta.
    match goal with
    | |- context [truthy ?s] => destruct (truthy s)
    end; rewrite run_ret;
      match goal with
      | |- context [for_each chunks _ ?acc] =>
          destruct (IH acc
                      ((l ++ [Tokenize c])
                       ++ [summarizer_call self (chunk_max_length (len all))
                             (chunk_min_length (len all)) c]))
            as (summaries' & l' & Hrun & Hcalls)
      end;
      exists summaries', l'; (split; [exact Hrun|]);
      rewrite Hcalls, !summarizer_calls_app;
      change (summarizer_calls [Tokenize c]) with (@nil event);
      change (summarizer_calls
                [summarizer_call self (chunk_max_length (len all))
                   (chunk_min_length (len all)) c])
        with [summarizer_call self (chunk_max_length (len all))
                (chunk_min_length (len all)) c];
      rewrite app_nil_r, <- app_assoc; reflexivity.
Qed.

(** When no chunk yields a summary the list of summaries stays as it is. *)
Lemma run_summarize_chunks_absent (all chunks : list text)
    (summaries : list text) (l : log) :
  (forall c max_length min_length l0,
      In c chunks ->
      fst (run (_safe_summarize self c max_length min_length) l0) = Ok None) ->
  exists l', run (for_each chunks (summarize_chunk self all) summaries) l =
             (Ok summaries, l').
Proof.
  revert l. induction chunks as [|c chunks IH]; intros l Habsent; simpl.
  - exists l. reflexivity.
  - rewrite run_bind. unfold summarize_chunk at 1. rewrite run_bind.
    pose proof (Habsent c (chunk_max_length (len all))
                  (chunk_min_length (len all)) l (or_introl eq_refl)) as Hc.
    destruct (run (_safe_summarize self c _ _) l) as [r l1].
    simpl in Hc. subst r. cbv beta iota zeta. unfold truthy.
    rewrite run_ret. apply IH. intros c' mx mn l0 Hin. apply Habsent. right. exact Hin.
Qed.

(** The chunked path up to the test on the viable chunks. *)
Lemma run_summarize_chunked (t : text) (l : log) :
  run (summarize_chunked self t) l =
  let l1 := (l ++ chunking_log self t) ++ map Tokenize (chunk_texts self t) in
  if negb (nonempty (viable_chunks self t)) then (Ok NO_SUMMARY_TOO_SHORT, l1)
  else
    run (chunk_summaries <-
           for_each (viable_chunks self t)
             (summarize_chunk self (viable_chunks self t)) [] ;;
         if negb (nonempty chunk_summaries) then ret NO_SUMMARY
         else ret (join [SPACE] chunk_summaries)) l1.
Proof.
  unfold summarize_chunked.
  rewrite run_bind, run_chunk_text, run_bind, run_viable_filter.
  fold (viable_chunks self t). cbv zeta.
  destruct (negb (nonempty (viable_chunks self t))); reflexivity.
Qed.

End SummarizerLemmas.

(* ================================================================== *)
(** ** Properties of the summary length bounds *)

Section Bounds.
Context `{PythonRuntime}.
Variable self : UrduLLMProcessor.

(** C3, as the code has it.  The per-chunk bounds
    [MAX_SUMMARY_LENGTH // n] and [max(15, MIN_SUMMARY_LENGTH // n)]
    satisfy min < max and max > 0 for every chunk count from 1 to 7; from
    8 chunks on the maximum is at most the minimum, and the maximum is
    positive exactly up to 120 chunks. *)
Theorem chunk_bounds_by_count (chunk_count : Z) :
  (1 <= chunk_count <= 7 ->
   chunk_min_length chunk_count < chunk_max_length chunk_count
   /\ chunk_max_length chunk_count > 0)
  /\ (8 <= chunk_count ->
      chunk_max_length chunk_count <= chunk_min_length chunk_count)
  /\ (1 <= chunk_count ->
      (chunk_max_length chunk_count > 0 <-> chunk_count <= 120)).
Proof.
  unfold chunk_min_length, chunk_max_length, MAX_SUMMARY_LENGTH,
    MIN_SUMMARY_LENGTH.
  split; [|split].
  - intros Hn.
    assert (Hcases : chunk_count = 1 \/ chunk_count = 2 \/ chunk_count = 3
                     \/ chunk_count = 4 \/ chunk_count = 5
                     \/ chunk_count = 6 \/ chunk_count = 7) by lia.
    repeat (destruct Hcases as [-> | Hcases]); try subst chunk_count;
      vm_compute; split; reflexivity.
  - intros Hn.
    assert (120 / chunk_count < 16)
      by (apply Z.div_lt_upper_bound; lia).
    lia.
  - intros Hn. split.
    + intros Hpos.
      destruct (Z.le_gt_cases chunk_count 120) as [Hle|Hgt]; [exact Hle|].
      rewrite Z.div_small in Hpos by lia. lia.
    + intros Hle.
      assert (1 <= 120 / chunk_count)
        by (apply Z.div_le_lower_bound; lia).
      lia.
Qed.

(** C6 (degenerate clamp rule).  In [_safe_summarize], after
    [actual_max = min(max_length, token_count)] and
    [actual_min = min(min_length, actual_max - 1)], the value of
    [actual_min] after the [if] statement is [max(10, actual_max // 2)]
    whenever [actual_min >= actual_max] held and the clamped value
    otherwise, and for every input it is strictly less than [actual_max].
    The clamp alone already gives [actual_min < actual_max]: the test is
    false for every input, so the value after the [if] is the clamped one,
    and these are the bounds the summarizer is called with. *)
Theorem clamps_keep_min_below_max
    (t : text) (max_length min_length count : Z) :
  let actual_max := clamp_max max_length count in
  let actual_min := clamp_min min_length actual_max in
  let corrected_min := reset_min actual_min actual_max in
  corrected_min =
    (if actual_min >=? actual_max then Z.max 10 (actual_max / 2)
     else actual_min)
  /\ corrected_min < actual_max
  /\ actual_min < actual_max
  /\ (actual_min >=? actual_max) = false
  /\ corrected_min = actual_min
  /\ summarizer_call self max_length min_length t =
     Summarize t
       (clamp_max max_length (token_count self t))
       (clamp_min min_length (clamp_max max_length (token_count self t))).
Proof.
  cbv zeta.
  pose proof (clamp_min_below min_length (clamp_max max_length count))
    as Hlt.
  split; [reflexivity|].
  split; [rewrite reset_min_idle; exact Hlt|].
  repeat split.
  - exact Hlt.
  - destruct (Z.geb_spec
                (clamp_min min_length (clamp_max max_length count))
                (clamp_max max_length count)); [lia | reflexivity].
  - apply reset_min_idle.
  - unfold summarizer_call. cbv zeta. rewrite reset_min_idle. reflexivity.
Qed.

End Bounds.

(* ================================================================== *)
(** ** Properties of the classification facade *)

Section Classification.
Context `{PythonRuntime}.
Variable self : UrduLLMProcessor.

Lemma map_to_urdu_category_table (label : text) :
  _map_to_urdu_category label =
  first_match keyword_groups (str_lower label) TAG_OTHER.
Proof.
  unfold _map_to_urdu_category, keyword_groups, first_match, matches_group,
    existsb.
  rewrite !orb_false_r. reflexivity.
Qed.

Lemma first_match_skips (before after : list (list text * text))
    (keywords : list text) (tag label otherwise : text) :
  (forall earlier tag', In (earlier, tag') before ->
                        matches_group label earlier = false) ->
  matches_group label keywords = true ->
  first_match (before ++ (keywords, tag) :: after) label otherwise = tag.
Proof.
  intros Hbefore Hhere.
  induction before as [|[kws tg] before IH]; simpl.
  - rewrite Hhere. reflexivity.
  - rewrite (Hbefore kws tg) by (left; reflexivity).
    apply IH. intros earlier tag' Hin. apply (Hbefore earlier tag').
    right. exact Hin.
Qed.

Lemma first_match_none (groups : list (list text * text))
    (label otherwise : text) :
  (forall keywords tag, In (keywords, tag) groups ->
                        matches_group label keywords = false) ->
  first_match groups label otherwise = otherwise.
Proof.
  intros Hnone.
  induction groups as [|[kws tg] groups IH]; simpl; [reflexivity|].
  rewrite (Hnone kws tg) by (left; reflexivity).
  apply IH. intros keywords tag Hin. apply (Hnone keywords tag).
  right. exact Hin.
Qed.

Lemma run_truncate (t : text) (max_tokens : Z) (l : log) :
  exists safe_text l',
    run (_truncate_text_to_tokens self t max_tokens) l = (Ok safe_text, l').
Proof.
  unfold _truncate_text_to_tokens. rewrite run_bind, run_tokenize.
  destruct (_ <=? _); eexists; eexists; reflexivity.
Qed.

(** C9, as the code has it.  The label is lower-cased and tested for the
    keywords of the groups in the fixed order sport, tech, polit, health,
    science, world, art/culture, business: it maps to the tag of the first
    group one of whose keywords it contains (so any label containing
    'sport' maps to the sports tag), and to the catch-all tag when it
    contains none.  With a loaded classifier, [classify_text] never
    raises: when the classifier raises or returns no item it returns the
    catch-all tag. *)
Theorem category_of_first_matching_group (label t : text) (l : log) :
  _map_to_urdu_category label =
    first_match keyword_groups (str_lower label) TAG_OTHER
  /\ (contains (py "sport") (str_lower label) = true ->
      _map_to_urdu_category label = TAG_SPORTS)
  /\ (forall before keywords tag after,
         keyword_groups = before ++ (keywords, tag) :: after ->
         (forall earlier tag', In (earlier, tag') before ->
                               matches_group (str_lower label) earlier = false) ->
         matches_group (str_lower label) keywords = true ->
         _map_to_urdu_category label = tag)
  /\ ((forall keywords tag, In (keywords, tag) keyword_groups ->
                            matches_group (str_lower label) keywords = false) ->
      _map_to_urdu_category label = TAG_OTHER)
  /\ (forall model,
         classifier self = Some model ->
         exists safe_text l1,
           run (_truncate_text_to_tokens self t MAX_CLASSIFICATION_TOKENS) l
           = (Ok safe_text, l1)
           /\ run (classify_text self t) l =
              (Ok (match model l1 safe_text with
                   | Ok (first_label :: _) =>
                       _map_to_urdu_category first_label
                   | _ => TAG_OTHER
                   end),
               l1 ++ [Classify safe_text])).
Proof.
  split; [apply map_to_urdu_category_table|].
  split.
  { intros Hsport. unfold _map_to_urdu_category. rewrite Hsport.
    reflexivity. }
  split.
  { intros before keywords tag after Htable Hbefore Hhere.
    rewrite map_to_urdu_category_table, Htable.
    apply first_match_skips; assumption. }
  split.
  { intros Hnone. rewrite map_to_urdu_category_table.
    apply first_match_none, Hnone. }
  intros model Hmodel.
  destruct (run_truncate t MAX_CLASSIFICATION_TOKENS l)
    as (safe_text & l1 & Htrunc).
  exists safe_text, l1. split; [exact Htrunc|].
  unfold classify_text. rewrite Hmodel.
  unfold try_except, run, bind. unfold run in Htrunc. rewrite Htrunc.
  unfold call_classifier. rewrite Hmodel.
  destruct (model l1 safe_text) as [[|first_label rest]|e]; reflexivity.
Qed.

(** C10.  [classify_text] on a processor whose classifier is [None], and
    [summarize_text] on a processor whose summarizer is [None], raise
    [ValueError] with nothing added to the log: no tokenizer call and no
    model call has been made. *)
Theorem models_must_be_initialized (t : text) (l : log) :
  (classifier self = None ->
   run (classify_text self t) l =
   (Raise (ValueError "Classifier not initialized"), l))
  /\ (summarizer self = None ->
      run (summarize_text self t) l =
      (Raise (ValueError "Summarizer not initialized"), l)).
Proof.
  split; intros Hnone.
  - unfold classify_text. rewrite Hnone. reflexivity.
  - unfold summarize_text. rewrite Hnone. reflexivity.
Qed.

End Classification.

(* ================================================================== *)
(** ** Properties of the orchestrator *)

Section Orchestrator.
Context `{PythonRuntime}.
Variable self : UrduLLMProcessor.

(** The bounds of the whole-text call are the configured ones. *)
Lemma whole_text_call (t : text) :
  MIN_CHUNK_LENGTH <= token_count self t ->
  clamp_max MAX_SUMMARY_LENGTH (token_count self t) = MAX_SUMMARY_LENGTH
  /\ reset_min
       (clamp_min MIN_SUMMARY_LENGTH
          (clamp_max MAX_SUMMARY_LENGTH (token_count self t)))
       (clamp_max MAX_SUMMARY_LENGTH (token_count self t))
     = MIN_SUMMARY_LENGTH.
Proof.
  intros Hlong. rewrite reset_min_idle.
  unfold clamp_min, clamp_max, MIN_CHUNK_LENGTH, MAX_SUMMARY_LENGTH,
    MIN_SUMMARY_LENGTH in *.
  lia.
Qed.

Lemma no_viable_chunks (t : text) :
  (forall chunk, In chunk (chunk_texts self t) ->
                 token_count self chunk < MIN_CHUNK_LENGTH) ->
  viable_chunks self t = [].
Proof.
  intros Hshort. unfold viable_chunks.
  induction (chunk_texts self t) as [|c cs IH]; simpl; [reflexivity|].
  unfold viable at 1.
  destruct (Z.geb_spec (token_count self c) MIN_CHUNK_LENGTH) as [Hge|_].
  - specialize (Hshort c (or_introl eq_refl)). lia.
  - apply IH. intros chunk Hin. apply Hshort. right. exact Hin.
Qed.

Lemma some_viable_chunk (t : text) :
  (exists chunk, In chunk (chunk_texts self t)
                 /\ MIN_CHUNK_LENGTH <= token_count self chunk) ->
  nonempty (viable_chunks self t) = true.
Proof.
  intros (chunk & Hin & Hlong).
  assert (Hv : In chunk (viable_chunks self t)).
  { apply filter_In. split; [exact Hin|].
    unfold viable. apply Z.geb_le. exact Hlong. }
  destruct (viable_chunks self t); [contradiction | reflexivity].
Qed.

Lemma viable_chunks_viable (t : text) :
  Forall (fun c => viable self c = true) (viable_chunks self t).
Proof.
  apply Forall_forall. intros c Hin.
  apply filter_In in Hin. apply Hin.
Qed.

(** C2, as the code has it.  For a text of at most
    [MAX_SUMMARIZATION_TOKENS] tokens, [summarize_text] first tries the
    whole text.  Below [MIN_CHUNK_LENGTH] tokens no summarizer call is
    made and the chunking path runs.  From [MIN_CHUNK_LENGTH] tokens on,
    the summarizer is called once, with the full text and the bounds
    ([MAX_SUMMARY_LENGTH], [MIN_SUMMARY_LENGTH]); a non-empty summary is
    returned at once, with no chunking and no further call; when the call
    raises or gives nothing, the chunking path runs after it. *)
Theorem whole_text_attempt (model : Summarizer) (t : text) (l : log) :
  summarizer self = Some model ->
  token_count self t <= MAX_SUMMARIZATION_TOKENS ->
  let l1 := l ++ [Tokenize t; Tokenize t] in
  let call := Summarize t MAX_SUMMARY_LENGTH MIN_SUMMARY_LENGTH in
  let answer := model l1 t MAX_SUMMARY_LENGTH MIN_SUMMARY_LENGTH in
  (token_count self t < MIN_CHUNK_LENGTH ->
   run (summarize_text self t) l = run (summarize_chunked self t) l1)
  /\ (MIN_CHUNK_LENGTH <= token_count self t ->
      forall summary,
        summary_of answer = Some summary -> summary <> [] ->
        run (summarize_text self t) l = (Ok summary, l1 ++ [call]))
  /\ (MIN_CHUNK_LENGTH <= token_count self t ->
      truthy (summary_of answer) = false ->
      run (summarize_text self t) l =
      run (summarize_chunked self t) (l1 ++ [call])).
Proof.
  intros Hmodel Hfits. cbv zeta.
  assert (Hstart :
            run (summarize_text self t) l =
            run (summary <-
                   _safe_summarize self t MAX_SUMMARY_LENGTH
                     MIN_SUMMARY_LENGTH ;;
                 if truthy summary
                 then ret (match summary with Some s => s | None => [] end)
                 else summarize_chunked self t) (l ++ [Tokenize t])).
  { unfold summarize_text. rewrite Hmodel, run_bind, run_tokenize.
    fold (token_count self t).
    destruct (Z.leb_spec (token_count self t) MAX_SUMMARIZATION_TOKENS);
      [reflexivity | lia]. }
  rewrite Hstart, run_bind, run_safe_summarize, Hmodel.
  replace ((l ++ [Tokenize t]) ++ [Tokenize t])
    with (l ++ [Tokenize t; Tokenize t])
    by (rewrite <- app_assoc; reflexivity).
  split; [|split].
  - intros Hshort.
    destruct (Z.ltb_spec (token_count self t) MIN_CHUNK_LENGTH);
      [reflexivity | lia].
  - intros Hlong summary Hsummary Hnonempty.
    destruct (Z.ltb_spec (token_count self t) MIN_CHUNK_LENGTH); [lia|].
    unfold summarizer_call. cbv zeta.
    destruct (whole_text_call t Hlong) as [-> ->].
    rewrite Hsummary. destruct summary; [contradiction | reflexivity].
  - intros Hlong Hnothing.
    destruct (Z.ltb_spec (token_count self t) MIN_CHUNK_LENGTH); [lia|].
    unfold summarizer_call. cbv zeta.
    destruct (whole_text_call t Hlong) as [-> ->].
    rewrite Hnothing. reflexivity.
Qed.

(** C7.  On the chunked path: when no chunk has [MIN_CHUNK_LENGTH]
    tokens, the result is the 'too short' message and no summarizer call
    is made; when some chunk has and every per-chunk [_safe_summarize]
    yields [None], the result is the other message; the two messages are
    different strings.  A text of more than [MAX_SUMMARIZATION_TOKENS]
    tokens goes to the chunked path directly, and [summarize_text] then
    returns what the chunked path returns. *)
Theorem placeholders_of_chunked_path (t : text) (l : log) :
  ((forall chunk, In chunk (chunk_texts self t) ->
                  token_count self chunk < MIN_CHUNK_LENGTH) ->
   exists l',
     run (summarize_chunked self t) l = (Ok NO_SUMMARY_TOO_SHORT, l')
     /\ summarizer_calls l' = summarizer_calls l)
  /\ ((exists chunk, In chunk (chunk_texts self t)
                     /\ MIN_CHUNK_LENGTH <= token_count self chunk) ->
      (forall chunk max_length min_length l0,
          In chunk (viable_chunks self t) ->
          fst (run (_safe_summarize self chunk max_length min_length) l0)
          = Ok None) ->
      exists l', run (summarize_chunked self t) l = (Ok NO_SUMMARY, l'))
  /\ NO_SUMMARY_TOO_SHORT <> NO_SUMMARY
  /\ (forall model,
         summarizer self = Some model ->
         token_count self t > MAX_SUMMARIZATION_TOKENS ->
         run (summarize_text self t) l =
         run (summarize_chunked self t) (l ++ [Tokenize t])).
Proof.
  split; [|split; [|split]].
  - intros Hshort. rewrite run_summarize_chunked. cbv zeta.
    rewrite (no_viable_chunks t Hshort). simpl.
    eexists. split; [reflexivity|].
    rewrite !summarizer_calls_app, summarizer_calls_chunking_log,
      summarizer_calls_tokenize, !app_nil_r.
    reflexivity.
  - intros Hsome Habsent. rewrite run_summarize_chunked. cbv zeta.
    rewrite (some_viable_chunk t Hsome). simpl negb. cbv iota.
    rewrite run_bind.
    destruct (run_summarize_chunks_absent self (viable_chunks self t)
                (viable_chunks self t) []
                ((l ++ chunking_log self t)
                 ++ map Tokenize (chunk_texts self t)) Habsent)
      as [l' Hrun].
    rewrite Hrun. exists l'. reflexivity.
  - intros Heq. vm_compute in Heq. discriminate Heq.
  - intros model Hmodel Hlong.
    unfold summarize_text. rewrite Hmodel, run_bind, run_tokenize.
    fold (token_count self t).
    destruct (Z.leb_spec (token_count self t) MAX_SUMMARIZATION_TOKENS);
      [lia | reflexivity].
Qed.

(** C8.  [_safe_summarize] never raises; when the summarizer raises, it
    returns [None] after that one call.  On the chunked path nothing is
    raised either, and the summarizer is called exactly once for every
    viable chunk, in order, whatever the earlier calls did. *)
Theorem summarizer_failures_are_contained
    (t : text) (max_length min_length : Z) (l : log) :
  (exists summary l',
      run (_safe_summarize self t max_length min_length) l =
      (Ok summary, l'))
  /\ (forall model e,
         summarizer self = Some model ->
         MIN_CHUNK_LENGTH <= token_count self t ->
         (let actual_max := clamp_max max_length (token_count self t) in
          let actual_min := clamp_min min_length actual_max in
          model (l ++ [Tokenize t]) t actual_max actual_min = Raise e) ->
         run (_safe_summarize self t max_length min_length) l =
         (Ok None,
          (l ++ [Tokenize t]) ++ [summarizer_call self max_length min_length t]))
  /\ (forall model,
         summarizer self = Some model ->
         exists result l',
           run (summarize_chunked self t) l = (Ok result, l')
           /\ summarizer_calls l' =
              summarizer_calls l
              ++ map (summarizer_call self
                        (chunk_max_length (len (viable_chunks self t)))
                        (chunk_min_length (len (viable_chunks self t))))
                   (viable_chunks self t)).
Proof.
  split; [apply safe_summarize_returns|].
  split.
  - intros model e Hmodel Hlong Hraise. cbv zeta in Hraise.
    rewrite run_safe_summarize, Hmodel.
    destruct (Z.ltb_spec (token_count self t) MIN_CHUNK_LENGTH); [lia|].
    cbv zeta. rewrite reset_min_idle, Hraise. reflexivity.
  - intros model Hmodel. rewrite run_summarize_chunked. cbv zeta.
    destruct (viable_chunks self t) as [|c cs] eqn:Hviable.
    + simpl. eexists. eexists. split; [reflexivity|].
      rewrite !summarizer_calls_app, summarizer_calls_chunking_log,
        summarizer_calls_tokenize, !app_nil_r.
      reflexivity.
    + simpl negb. cbv iota. rewrite run_bind.
      destruct (run_summarize_chunks self model (c :: cs) (c :: cs) []
                  ((l ++ chunking_log self t)
                   ++ map Tokenize (chunk_texts self t)) Hmodel)
        as (summaries & l' & Hrun & Hcalls).
      { rewrite <- Hviable. apply viable_chunks_viable. }
      rewrite Hrun.
      assert (Hlog : summarizer_calls l' =
                     summarizer_calls l
                     ++ map (summarizer_call self
                               (chunk_max_length (len (c :: cs)))
                               (chunk_min_length (len (c :: cs))))
                          (c :: cs)).
      { rewrite Hcalls, !summarizer_calls_app,
          summarizer_calls_chunking_log, summarizer_calls_tokenize,
          !app_nil_r.
        reflexivity. }
      destruct (negb (nonempty summaries)); rewrite run_ret; eauto.
Qed.

End Orchestrator.

(* ================================================================== *)
(** ** The properties on concrete inputs *)

Module Examples.
Import Demo.

(** The failing summarizer makes every [_safe_summarize] yield [None]. *)
Lemma failing_summarizer_absent (c : option Classifier) (t : text)
    (max_length min_length : Z) (l : log) :
  fst (run (_safe_summarize (processor c (Some failing_summarizer)) t
              max_length min_length) l) = Ok None.
Proof.
  rewrite run_safe_summarize.
  destruct (_ <? _); reflexivity.
Qed.

(** *** The chunk packer *)

(** C5 refuted as stated: the second paragraph is over the limit and is
    split while the accumulator holds the first paragraph, and its first
    sentence "c." goes into the chunk of the whole paragraph "ab". *)
Lemma long_paragraph_counterexample :
  let self := processor None None in
  re_split_paragraphs two_paragraphs = [py "ab"; long_second_paragraph]
  /\ token_count self (py "ab") = 2
  /\ token_count self long_second_paragraph = 802
  /\ re_split_sentences long_second_paragraph = [py "c."; chars 800 "d"]
  /\ run (for_each [py "ab"] (pack_paragraph self) packer_start) [] =
     (Ok {| chunks := []; current_chunk := [py "ab"]; current_length := 2 |},
      [Tokenize (py "ab")])
  /\ run (_chunk_text_for_summarization self two_paragraphs) [] =
     (Ok [py "ab c."; chars 800 "d"],
      [Tokenize (py "ab"); Tokenize long_second_paragraph;
       Tokenize (py "c."); Tokenize (chars 800 "d")]).
Proof. vm_compute. repeat split. Qed.

Lemma long_paragraph_continues_open_chunk_witness :
  exists more others l',
    run (_chunk_text_for_summarization (processor None None) two_paragraphs)
      [] =
    (Ok (join [SPACE] (py "ab" :: py "c." :: more) :: others), l').
Proof.
  refine (proj2 (proj2 (long_paragraph_continues_open_chunk
                          (processor None None) two_paragraphs []
                          (py "ab") long_second_paragraph (py "c.")
                          [] [chars 800 "d"] packer_start []))
            _ _ _ _ _).
  - vm_compute. reflexivity.
  - vm_compute. discriminate.
  - vm_compute. reflexivity.
  - vm_compute. reflexivity.
  - vm_compute. discriminate.
Defined.

(** *** The summary length bounds *)

(** C3 refuted as stated: with 8 chunks the minimum is not below the
    maximum, and with 121 chunks the maximum is not positive. *)
Lemma chunk_bounds_counterexample :
  8 > 0
  /\ chunk_min_length 8 = 15 /\ chunk_max_length 8 = 15
  /\ ~ chunk_min_length 8 < chunk_max_length 8
  /\ 121 > 0
  /\ chunk_max_length 121 = 0
  /\ ~ chunk_max_length 121 > 0.
Proof. vm_compute. repeat split; intros E; discriminate E. Qed.

Lemma chunk_bounds_by_count_witness :
  1 <= 3 <= 7
  /\ chunk_min_length 3 < chunk_max_length 3
  /\ chunk_max_length 3 > 0.
Proof.
  assert (Hcount : 1 <= 3 <= 7) by lia.
  split; [exact Hcount|].
  exact (proj1 (chunk_bounds_by_count 3) Hcount).
Defined.

(** No input of [_safe_summarize] reaches the reset; taken alone, on a
    state the clamps never produce, the reset would not give a value below
    the maximum: from [actual_min = actual_max = 5] it yields 10. *)
Example reset_never_reached :
  (~ exists max_length min_length token_count,
        clamp_min min_length (clamp_max max_length token_count)
        >= clamp_max max_length token_count)
  /\ reset_min 5 5 = 10.
Proof.
  split.
  - intros (max_length & min_length & token_count & Hge).
    pose proof (clamp_min_below min_length
                  (clamp_max max_length token_count)).
    lia.
  - reflexivity.
Qed.

(** *** The classification facade *)

(** C9 refuted as stated: a label containing 'health' does not map to
    the health tag when it also contains 'tech', which is tested first. *)
Lemma category_priority_counterexample :
  contains (py "health") (str_lower (py "Health Tech")) = true
  /\ _map_to_urdu_category (py "Health Tech") = TAG_TECHNOLOGY
  /\ TAG_TECHNOLOGY <> TAG_HEALTH.
Proof. vm_compute. repeat split. intros E. discriminate E. Qed.

Lemma category_of_first_matching_group_witness :
  _map_to_urdu_category (py "SPORTS news") = TAG_SPORTS
  /\ _map_to_urdu_category (py "Health Tech") = TAG_TECHNOLOGY
  /\ _map_to_urdu_category (py "LABEL_1") = TAG_OTHER
  /\ fst (run (classify_text (processor (Some failing_classifier) None)
                 (py "SPORTS news")) []) = Ok TAG_OTHER.
Proof.
  pose (self := processor (Some failing_classifier) None).
  split; [|split; [|split]].
  - refine (proj1 (proj2 (category_of_first_matching_group self
                            (py "SPORTS news") [] [])) _).
    vm_compute. reflexivity.
  - refine (proj1 (proj2 (proj2 (category_of_first_matching_group self
                                   (py "Health Tech") [] [])))
              [([py "sport"], TAG_SPORTS)] [py "tech"] TAG_TECHNOLOGY
              _ eq_refl _ _).
    + intros earlier tag' [E | []]. injection E as <- <-.
      vm_compute. reflexivity.
    + vm_compute. reflexivity.
  - refine (proj1 (proj2 (proj2 (proj2 (category_of_first_matching_group
                                          self (py "LABEL_1") [] [])))) _).
    intros keywords tag Hin. vm_compute in Hin.
    repeat (destruct Hin as [E | Hin];
            [injection E as <- <-; vm_compute; reflexivity|]).
    destruct Hin.
  - destruct (proj2 (proj2 (proj2 (proj2
               (category_of_first_matching_group self (py "SPORTS news")
                  (py "SPORTS news") []))))
                failing_classifier eq_refl)
      as (safe_text & l1 & _ & Hrun).
    subst self. rewrite Hrun. reflexivity.
Defined.

Lemma models_must_be_initialized_witness :
  run (classify_text (processor None None) short_text) [] =
    (Raise (ValueError "Classifier not initialized"), [])
  /\ run (summarize_text (processor None None) short_text) [] =
     (Raise (ValueError "Summarizer not initialized"), []).
Proof.
  split.
  - exact (proj1 (models_must_be_initialized (processor None None)
                    short_text []) eq_refl).
  - exact (proj2 (models_must_be_initialized (processor None None)
                    short_text []) eq_refl).
Defined.

(** A label in capitals goes through the whole facade. *)
Example classify_capitals :
  run (classify_text (processor (Some echo_classifier) None)
         (py "SPORTS news")) [] =
  (Ok TAG_SPORTS, [Tokenize (py "SPORTS news"); Classify (py "SPORTS news")]).
Proof. vm_compute. reflexivity. Qed.

(** *** The orchestrator *)

(** C2 refuted as stated: a text of 2 tokens is within the single-call
    limit, yet no summarizer call is made and the chunking path runs;
    and for a text of 200 tokens whose summarization fails, the
    whole-text call is followed by the chunking path and a second call. *)
Lemma single_call_counterexample :
  token_count (processor None (Some constant_summarizer)) short_text = 2
  /\ run (summarize_text (processor None (Some constant_summarizer))
            short_text) [] =
     (Ok NO_SUMMARY_TOO_SHORT,
      [Tokenize short_text; Tokenize short_text;
       Tokenize short_text; Tokenize short_text])
  /\ run (summarize_chunked (processor None (Some constant_summarizer))
            short_text) [Tokenize short_text; Tokenize short_text] =
     (Ok NO_SUMMARY_TOO_SHORT,
      [Tokenize short_text; Tokenize short_text;
       Tokenize short_text; Tokenize short_text])
  /\ token_count (processor None (Some failing_summarizer)) medium_text
     = 200
  /\ run (summarize_text (processor None (Some failing_summarizer))
            medium_text) [] =
     (Ok NO_SUMMARY,
      [Tokenize medium_text; Tokenize medium_text;
       Summarize medium_text 120 25;
       Tokenize medium_text; Tokenize medium_text; Tokenize medium_text;
       Summarize medium_text 120 25]).
Proof. vm_compute. repeat split. Qed.

Lemma whole_text_attempt_witness :
  token_count (processor None (Some constant_summarizer)) medium_text
    <= MAX_SUMMARIZATION_TOKENS
  /\ run (summarize_text (processor None (Some constant_summarizer))
            medium_text) [] =
     (Ok (py "summary"),
      [Tokenize medium_text; Tokenize medium_text;
       Summarize medium_text MAX_SUMMARY_LENGTH MIN_SUMMARY_LENGTH]).
Proof.
  assert (Hfits : token_count (processor None (Some constant_summarizer))
                    medium_text <= MAX_SUMMARIZATION_TOKENS)
    by (vm_compute; discriminate).
  split; [exact Hfits|].
  pose proof (whole_text_attempt
                (processor None (Some constant_summarizer))
                constant_summarizer medium_text [] eq_refl Hfits) as W.
  cbv zeta in W. destruct W as (_ & Hcall & _).
  apply (Hcall ltac:(vm_compute; discriminate) (py "summary") eq_refl).
  discriminate.
Defined.

Lemma placeholders_of_chunked_path_witness :
  (exists l',
      run (summarize_chunked (processor None (Some constant_summarizer))
             short_text) [] = (Ok NO_SUMMARY_TOO_SHORT, l')
      /\ summarizer_calls l' = [])
  /\ (exists l',
         run (summarize_chunked (processor None (Some failing_summarizer))
                medium_text) [] = (Ok NO_SUMMARY, l')).
Proof.
  split.
  - apply (proj1 (placeholders_of_chunked_path
                    (processor None (Some constant_summarizer))
                    short_text [])).
    intros chunk Hin. vm_compute in Hin.
    destruct Hin as [<- | []]. vm_compute. reflexivity.
  - apply (proj1 (proj2 (placeholders_of_chunked_path
                           (processor None (Some failing_summarizer))
                           medium_text []))).
    + exists medium_text. split.
      * vm_compute. left. reflexivity.
      * vm_compute. discriminate.
    + intros chunk max_length min_length l0 _.
      apply failing_summarizer_absent.
Defined.

(** The first call fails and the second chunk is summarised all the same. *)
Lemma summarizer_failures_are_contained_witness :
  run (_safe_summarize (processor None (Some failing_summarizer))
         medium_text 120 25) [] =
    (Ok None, [Tokenize medium_text; Summarize medium_text 120 25])
  /\ (exists result l',
         run (summarize_chunked (processor None (Some flaky_summarizer))
                two_long_paragraphs) [] = (Ok result, l')
         /\ summarizer_calls l' =
            [Summarize (chars 200 "a") 60 15;
             Summarize (chars 700 "b") 60 15]).
Proof.
  split.
  - apply (proj1 (proj2 (summarizer_failures_are_contained
                           (processor None (Some failing_summarizer))
                           medium_text 120 25 []))
             failing_summarizer (ModelError "out of memory") eq_refl).
    + vm_compute. discriminate.
    + reflexivity.
  - destruct (proj2 (proj2 (summarizer_failures_are_contained
                              (processor None (Some flaky_summarizer))
                              two_long_paragraphs 120 25 []))
                flaky_summarizer eq_refl)
      as (result & l' & Hrun & Hcalls).
    exists result, l'. split; [exact Hrun|].
    rewrite Hcalls. vm_compute. reflexivity.
Defined.

(** With the flaky summarizer the text above gets the second chunk's
    summary. *)
Example flaky_summarizer_second_chunk :
  fst (run (summarize_text (processor None (Some flaky_summarizer))
              two_long_paragraphs) []) = Ok (py "summary").
Proof. vm_compute. reflexivity. Qed.

End Examples.

(* ================================================================== *)
(** ** Further properties of the chunk packer *)

Section PackerGreedy.
Context `{PythonRuntime}.
Variable self : UrduLLMProcessor.

Lemma token_count_nonneg (u : text) : 0 <= token_count self u.
Proof. unfold token_count, len. lia. Qed.

Lemma total_tokens_nonneg (units : list text) : 0 <= total_tokens self units.
Proof.
  induction units as [|u units IH]; simpl; [lia|].
  pose proof (token_count_nonneg u). lia.
Qed.

Lemma total_tokens_member (u : text) (units : list text) :
  In u units -> token_count self u <= total_tokens self units.
Proof.
  induction units as [|v units IH]; simpl; [contradiction|].
  pose proof (token_count_nonneg v).
  pose proof (total_tokens_nonneg units).
  intros [-> | Hin]; [lia | specialize (IH Hin); lia].
Qed.

Lemma closed_when_full_new (groups : list (list text)) (g : list text)
    (u : text) :
  closed_when_full self (groups ++ [g]) ->
  total_tokens self g + token_count self u > MAX_SUMMARIZATION_TOKENS ->
  closed_when_full self ((groups ++ [g]) ++ [[u]]).
Proof.
  intros Hfull Hover.
  induction groups as [|g0 groups IH]; simpl in *.
  - repeat split; exact Hover.
  - destruct Hfull as [Hnext Hrest]. split; [|apply IH, Hrest].
    destruct groups as [|g1 groups]; simpl in *; exact Hnext.
Qed.

Lemma closed_when_full_grow (groups : list (list text)) (c u : text)
    (cs : list text) :
  closed_when_full self (groups ++ [c :: cs]) ->
  closed_when_full self (groups ++ [(c :: cs) ++ [u]]).
Proof.
  intros Hfull.
  induction groups as [|g0 groups IH]; simpl in *.
  - repeat split.
  - destruct Hfull as [Hnext Hrest]. split; [|apply IH, Hrest].
    destruct groups as [|g1 groups]; simpl in *; exact Hnext.
Qed.

Lemma closed_when_full_at (before after : list (list text))
    (g others : list text) (u : text) :
  closed_when_full self (before ++ g :: (u :: others) :: after) ->
  total_tokens self g + token_count self u > MAX_SUMMARIZATION_TOKENS.
Proof.
  induction before as [|g0 before IH]; simpl.
  - intros [Hnext _]. exact Hnext.
  - intros [_ Hrest]. apply IH, Hrest.
Qed.

Lemma packed_full_start : packed_full self [] packer_start.
Proof. exists []. simpl. repeat split; auto. Qed.

Lemma packed_full_step (units : list text) (st : packer) (u : text) :
  packed_full self units st ->
  packed_full self (units ++ [u]) (pack u (token_count self u) st).
Proof.
  intros (groups & Hchunks & Hunits & Hlen & Hempty & Hfull).
  unfold pack.
  destruct (Z.gtb_spec (current_length st + token_count self u)
              MAX_SUMMARIZATION_TOKENS) as [Hover|Hfits].
  - unfold flush. destruct (current_chunk st) as [|c cs] eqn:Hcur; simpl.
    + exists groups. simpl. rewrite (Hempty eq_refl) in *. simpl in *.
      repeat split; auto; try discriminate.
      * rewrite <- Hunits. reflexivity.
      * lia.
    + exists (groups ++ [c :: cs]). simpl. repeat split.
      * rewrite Hchunks, map_app. reflexivity.
      * rewrite concat_app. simpl. rewrite app_nil_r, <- Hunits.
        rewrite <- app_assoc. reflexivity.
      * lia.
      * discriminate.
      * apply closed_when_full_new; [exact Hfull|]. rewrite <- Hlen. lia.
  - destruct (current_chunk st) as [|c cs] eqn:Hcur.
    + exists groups. simpl.
      rewrite (Hempty eq_refl) in *. simpl in *.
      repeat split; auto; try discriminate.
      * rewrite <- Hunits. reflexivity.
      * lia.
    + exists groups. simpl. repeat split; auto.
      * rewrite <- Hunits, <- app_assoc. reflexivity.
      * change (c :: cs ++ [u]) with ((c :: cs) ++ [u]).
        rewrite total_tokens_app. simpl. simpl in Hlen. lia.
      * discriminate.
      * apply (closed_when_full_grow groups c u cs), Hfull.
Qed.

Lemma packed_full_all (later units : list text) (st : packer) :
  packed_full self units st ->
  packed_full self (units ++ later) (pack_all self later st).
Proof.
  revert units st.
  induction later as [|u later IH]; intros units st Hst; simpl.
  - rewrite app_nil_r. exact Hst.
  - replace (units ++ u :: later) with ((units ++ [u]) ++ later)
      by (rewrite <- app_assoc; reflexivity).
    apply IH, packed_full_step, Hst.
Qed.

(** X1 (chunks are closed only when full).  The chunks of a text are the
    joins of groups that partition its structural units, and whenever one
    group is followed by another, the accumulated token count of the first
    plus the token count of the first unit of the second exceeds
    [MAX_SUMMARIZATION_TOKENS]: a chunk is never closed while the next unit
    would still fit. *)
Theorem chunk_closed_only_when_full (t : text) (l : log) :
  exists groups,
    fst (run (_chunk_text_for_summarization self t) l)
    = Ok (map (join [SPACE]) groups)
    /\ concat groups = structural_units self t
    /\ forall before after g others u,
         groups = before ++ g :: (u :: others) :: after ->
         total_tokens self g + token_count self u
         > MAX_SUMMARIZATION_TOKENS.
Proof.
  destruct (packed_full_all (structural_units self t) [] packer_start
              packed_full_start)
    as (groups & Hchunks & Hunits & _ & Hempty & Hfull).
  simpl app in Hunits. rewrite run_chunk_text. simpl fst.
  unfold chunk_texts. cbv zeta. unfold flush.
  destruct (current_chunk
              (pack_all self (structural_units self t) packer_start))
    as [|c cs] eqn:Hcur; simpl nonempty; cbv iota.
  - exists groups. rewrite app_nil_r in Hunits.
    repeat split; [rewrite Hchunks; reflexivity | exact Hunits |].
    intros before after g others u Hsplit.
    rewrite (Hempty eq_refl) in Hsplit.
    destruct before; discriminate Hsplit.
  - exists (groups ++ [c :: cs]). repeat split.
    + rewrite Hchunks, map_app. reflexivity.
    + rewrite concat_app. simpl. rewrite app_nil_r. exact Hunits.
    + intros before after g others u Hsplit. rewrite Hsplit in Hfull.
      apply (closed_when_full_at before after g others u), Hfull.
Qed.

Lemma pack_all_fits (later : list text) (st : packer) :
  chunks st = [] ->
  current_length st = total_tokens self (current_chunk st) ->
  total_tokens self (current_chunk st) + total_tokens self later
  <= MAX_SUMMARIZATION_TOKENS ->
  chunks (pack_all self later st) = []
  /\ current_chunk (pack_all self later st) = current_chunk st ++ later.
Proof.
  revert st. induction later as [|u later IH]; intros st Hnone Hlen Hfit.
  - simpl. rewrite app_nil_r. auto.
  - simpl in Hfit. pose proof (total_tokens_nonneg later).
    change (pack_all self (u :: later) st)
      with (pack_all self later (pack u (token_count self u) st)).
    rewrite pack_fits by lia.
    destruct (IH {| chunks := chunks st;
                    current_chunk := current_chunk st ++ [u];
                    current_length :=
                      current_length st + token_count self u |})
      as [Hchunks Hcurrent]; simpl.
    + exact Hnone.
    + rewrite total_tokens_app. simpl. lia.
    + rewrite total_tokens_app. simpl. lia.
    + simpl in Hcurrent. rewrite Hchunks, Hcurrent, <- app_assoc. auto.
Qed.

(** X2 (a text within the limit is one chunk).  When the token counts of
    the structural units of a text add up to at most
    [MAX_SUMMARIZATION_TOKENS] (equality included), the packer returns
    exactly one chunk: all the units joined by single spaces. *)
Theorem text_within_limit_is_one_chunk (t : text) (l : log) :
  total_tokens self (structural_units self t) <= MAX_SUMMARIZATION_TOKENS ->
  fst (run (_chunk_text_for_summarization self t) l)
  = Ok [join [SPACE] (structural_units self t)].
Proof.
  intros Hfit. rewrite run_chunk_text. simpl fst. unfold chunk_texts.
  cbv zeta.
  destruct (pack_all_fits (structural_units self t) packer_start)
    as [Hchunks Hcurrent]; simpl; auto.
  rewrite Hchunks, Hcurrent. simpl app. unfold flush.
  pose proof (separated_nonempty _ _ (structural_units_separated self t)).
  destruct (structural_units self t); [contradiction | reflexivity].
Qed.

(** X3 (a unit over the limit is a chunk of its own).  Every structural
    unit whose own token count exceeds [MAX_SUMMARIZATION_TOKENS] is
    returned as a chunk by itself, unchanged: it is neither split nor
    truncated nor merged with a neighbour. *)
Theorem oversized_unit_is_its_own_chunk (t u : text) (l : log) :
  In u (structural_units self t) ->
  token_count self u > MAX_SUMMARIZATION_TOKENS ->
  exists groups,
    fst (run (_chunk_text_for_summarization self t) l)
    = Ok (map (join [SPACE]) groups)
    /\ concat groups = structural_units self t
    /\ In [u] groups
    /\ In u (map (join [SPACE]) groups).
Proof.
  intros Hin Hlong.
  destruct (chunk_text_groups self t l) as (groups & Hrun & Hgroups & Hunits).
  exists groups. rewrite Hrun. simpl fst.
  assert (Hgroup : In [u] groups).
  { rewrite <- Hunits in Hin. apply in_concat in Hin.
    destruct Hin as (g & Hg & Hu).
    rewrite Forall_forall in Hgroups.
    destruct (Hgroups g Hg) as [_ [Hsmall | (v & -> & _)]].
    - pose proof (total_tokens_member u g Hu). lia.
    - destruct Hu as [-> | []]. exact Hg. }
  repeat split; auto.
  change u with (join [SPACE] [u]) at 1.
  apply in_map, Hgroup.
Qed.

Lemma length_concat_nonempty {A : Type} (groups : list (list A)) :
  Forall (fun g => g <> []) groups ->
  (length groups <= length (concat groups))%nat.
Proof.
  induction 1 as [|g groups Hg _ IH]; simpl; [lia|].
  rewrite length_app. destruct g; [contradiction | simpl; lia].
Qed.

(** X4 (number of chunks).  The packer never returns an empty list and
    never more chunks than the text has structural units. *)
Theorem chunk_count_bounds (t : text) (l : log) :
  exists chunks,
    fst (run (_chunk_text_for_summarization self t) l) = Ok chunks
    /\ 1 <= len chunks <= len (structural_units self t).
Proof.
  destruct (chunk_text_groups self t l) as (groups & Hrun & Hgroups & Hunits).
  exists (map (join [SPACE]) groups). rewrite Hrun. split; [reflexivity|].
  assert (Hne : Forall (fun g : list text => g <> []) groups).
  { eapply Forall_impl; [|exact Hgroups]. intros g [Hg _]. exact Hg. }
  pose proof (length_concat_nonempty groups Hne) as Hle.
  pose proof (separated_nonempty _ _ (structural_units_separated self t))
    as Hsome.
  unfold len. rewrite length_map. rewrite Hunits in Hle. split; [|lia].
  destruct groups; [simpl in Hunits; congruence | simpl; lia].
Qed.

End PackerGreedy.

(* ================================================================== *)
(** ** Texts the splitter leaves whole *)

Section Unsplit.
Context `{PythonRuntime}.
Variable self : UrduLLMProcessor.

Lemma char_eqb_eq (a b : char) : char_eqb a b = true -> a = b.
Proof. apply N.eqb_eq. Qed.

Lemma split_paragraphs_no_newline (s : text) :
  ~ In NEWLINE s -> split_paragraphs_from 0 s = [s].
Proof.
  induction s as [|c s IH]; intros Hnone; simpl; [reflexivity|].
  destruct (char_eqb c NEWLINE) eqn:Hc.
  - exfalso. apply Hnone. left. apply char_eqb_eq, Hc.
  - rewrite IH; [reflexivity|]. intros Hin. apply Hnone. right. exact Hin.
Qed.

Lemma split_sentences_no_terminator (s before : text) :
  behind_terminator before = false ->
  (forall c, In c s -> is_terminator c = false) ->
  split_sentences_from before s = [s].
Proof.
  revert before. induction s as [|c s IH]; intros before Hbefore Hnone; simpl;
    [reflexivity|].
  unfold sentence_break. rewrite Hbefore, andb_false_r. simpl.
  rewrite IH; [reflexivity | |].
  - simpl. apply (Hnone c). left. reflexivity.
  - intros c' Hin. apply Hnone. right. exact Hin.
Qed.

Lemma structural_units_unsplit (t : text) :
  ~ In NEWLINE t ->
  (forall c, In c t -> is_terminator c = false) ->
  structural_units self t = [t].
Proof.
  intros Hline Hterm. unfold structural_units, re_split_paragraphs.
  rewrite split_paragraphs_no_newline by exact Hline.
  simpl. apply split_sentences_no_terminator; [reflexivity | exact Hterm].
Qed.

Lemma chunk_texts_single_unit (t : text) :
  structural_units self t = [t] -> chunk_texts self t = [t].
Proof.
  intros Hunits. unfold chunk_texts. rewrite Hunits. simpl. unfold pack.
  destruct (_ >? _); reflexivity.
Qed.

(** X5 (text without sentence punctuation).  A text that contains no
    newline and none of the characters '.', '?', '!' is returned by the
    packer as one chunk equal to the text, whatever its token count; the
    Urdu full stop and question mark are not among these characters. *)
Theorem unpunctuated_text_is_one_chunk (t : text) (l : log) :
  ~ In NEWLINE t ->
  (forall c, In c t -> is_terminator c = false) ->
  run (_chunk_text_for_summarization self t) l =
  (Ok [t], l ++ [Tokenize t]).
Proof.
  intros Hline Hterm. rewrite run_chunk_text.
  rewrite chunk_texts_single_unit
    by (apply structural_units_unsplit; assumption).
  unfold chunking_log, re_split_paragraphs.
  rewrite split_paragraphs_no_newline by exact Hline. simpl.
  unfold re_split_sentences.
  rewrite split_sentences_no_terminator; [reflexivity | reflexivity | exact Hterm].
Qed.

Lemma summarize_text_long (model : Summarizer) (t : text) (l : log) :
  summarizer self = Some model ->
  token_count self t > MAX_SUMMARIZATION_TOKENS ->
  run (summarize_text self t) l =
  run (summarize_chunked self t) (l ++ [Tokenize t]).
Proof.
  intros Hmodel Hlong.
  unfold summarize_text. rewrite Hmodel, run_bind, run_tokenize.
  fold (token_count self t).
  destruct (Z.leb_spec (token_count self t) MAX_SUMMARIZATION_TOKENS);
    [lia | reflexivity].
Qed.

(** X6 (a long unpunctuated text is summarised whole).  For a text of
    more than [MAX_SUMMARIZATION_TOKENS] tokens with no newline and none of
    '.', '?', '!', [summarize_text] makes exactly one summarizer call, on
    the entire text, with the bounds ([MAX_SUMMARY_LENGTH],
    [MIN_SUMMARY_LENGTH]): the text is not cut down to the token limit
    before the call. *)
Theorem long_unpunctuated_text_summarized_whole
    (model : Summarizer) (t : text) (l : log) :
  summarizer self = Some model ->
  token_count self t > MAX_SUMMARIZATION_TOKENS ->
  ~ In NEWLINE t ->
  (forall c, In c t -> is_terminator c = false) ->
  exists result l',
    run (summarize_text self t) l = (Ok result, l')
    /\ summarizer_calls l' =
       summarizer_calls l
       ++ [Summarize t MAX_SUMMARY_LENGTH MIN_SUMMARY_LENGTH].
Proof.
  intros Hmodel Hlong Hline Hterm.
  rewrite (summarize_text_long model) by assumption.
  rewrite run_summarize_chunked. cbv zeta.
  assert (Hchunks : chunk_texts self t = [t])
    by (apply chunk_texts_single_unit, structural_units_unsplit; assumption).
  assert (Hviable : viable self t = true).
  { unfold viable. apply Z.geb_le.
    unfold MIN_CHUNK_LENGTH, MAX_SUMMARIZATION_TOKENS in *. lia. }
  assert (Hvalid : viable_chunks self t = [t]).
  { unfold viable_chunks. rewrite Hchunks. simpl. rewrite Hviable.
    reflexivity. }
  rewrite Hvalid, Hchunks. simpl negb. cbv iota. rewrite run_bind.
  destruct (run_summarize_chunks self model [t] [t] []
              (((l ++ [Tokenize t]) ++ chunking_log self t)
               ++ map Tokenize [t]) Hmodel)
    as (summaries & l' & Hrun & Hcalls).
  { constructor; [exact Hviable | constructor]. }
  rewrite Hrun.
  assert (Hlog : summarizer_calls l' =
                 summarizer_calls l
                 ++ [Summarize t MAX_SUMMARY_LENGTH MIN_SUMMARY_LENGTH]).
  { rewrite Hcalls, !summarizer_calls_app, summarizer_calls_chunking_log.
    simpl map. change (summarizer_calls [Tokenize t]) with (@nil event).
    rewrite !app_nil_r. f_equal. f_equal.
    change (chunk_max_length (len [t])) with MAX_SUMMARY_LENGTH.
    change (chunk_min_length (len [t])) with MIN_SUMMARY_LENGTH.
    unfold summarizer_call. cbv zeta.
    assert (Hmin : MIN_CHUNK_LENGTH <= token_count self t)
      by (unfold MIN_CHUNK_LENGTH, MAX_SUMMARIZATION_TOKENS in *; lia).
    destruct (whole_text_call self t Hmin) as [-> ->]. reflexivity. }
  destruct (negb (nonempty summaries)); rewrite run_ret; eauto.
Qed.

End Unsplit.

(* ================================================================== *)
(** ** What the pieces of the splitter look like *)

Section Pieces.
Context `{PythonRuntime}.

Lemma match_space_newline_prefix (p r : text) :
  match_space_newline (p ++ r) = None -> match_space_newline p = None.
Proof.
  induction p as [|c p IH]; simpl; [reflexivity|].
  destruct (re_space c); [|reflexivity].
  destruct (match_space_newline (p ++ r)); [discriminate|].
  rewrite IH by reflexivity. auto.
Qed.

Lemma no_blank_line_nil : no_blank_line [].
Proof. intros a b E. destruct a; discriminate E. Qed.

Lemma no_blank_line_cons (c : char) (piece : text) :
  (char_eqb c NEWLINE = true -> match_space_newline piece = None) ->
  no_blank_line piece -> no_blank_line (c :: piece).
Proof.
  intros Hhead Hpiece a b E. destruct a as [|c' a]; simpl in E.
  - injection E as -> ->. apply Hhead. reflexivity.
  - injection E as -> ->. apply (Hpiece a b). reflexivity.
Qed.

Lemma split_paragraphs_from_pieces (s : text) (skip : nat) :
  exists h rest r,
    split_paragraphs_from skip s = h :: rest
    /\ skipn skip s = h ++ r
    /\ Forall no_blank_line (h :: rest).
Proof.
  revert skip. induction s as [|c s IH]; intros skip.
  - exists [], [], []. simpl. destruct skip; repeat split;
      constructor; auto using no_blank_line_nil.
  - destruct skip as [|k]; simpl; [|apply IH].
    destruct (IH 0%nat) as (h & rest & r & Hsplit & Hprefix & Hclean).
    simpl in Hprefix. apply Forall_cons_iff in Hclean.
    destruct Hclean as [Hh Hrest].
    destruct (char_eqb c NEWLINE) eqn:Hc.
    + destruct (match_space_newline s) as [n|] eqn:Hm.
      * destruct (IH n) as (h' & rest' & r' & Hsplit' & _ & Hclean').
        exists [], (h' :: rest'), (c :: s). rewrite Hsplit'.
        repeat split. constructor; [apply no_blank_line_nil | exact Hclean'].
      * exists (c :: h), rest, r. rewrite Hsplit. simpl.
        rewrite Hprefix. repeat split.
        constructor; [|exact Hrest].
        apply no_blank_line_cons; [|exact Hh].
        intros _. rewrite Hprefix in Hm.
        apply (match_space_newline_prefix h r), Hm.
    + exists (c :: h), rest, r. rewrite Hsplit. simpl.
      rewrite Hprefix. repeat split.
      constructor; [|exact Hrest].
      apply no_blank_line_cons; [|exact Hh].
      intros Habsurd. congruence.
Qed.

(** X7 (paragraphs hold no blank line).  No paragraph returned by the
    paragraph split contains a newline followed by optional whitespace and
    another newline: every blank line of the text has been taken as a
    separator. *)
Theorem paragraphs_hold_no_blank_line (s : text) :
  Forall no_blank_line (re_split_paragraphs s).
Proof.
  unfold re_split_paragraphs.
  destruct (split_paragraphs_from_pieces s 0) as (h & rest & r & -> & _ & Hclean).
  exact Hclean.
Qed.

Lemma ends_with_terminator_cons (c : char) (piece : text) :
  ends_with_terminator piece -> ends_with_terminator (c :: piece).
Proof.
  intros (body & d & -> & Hd). exists (c :: body), d. auto.
Qed.

Lemma split_sentences_from_pieces (s before : text) :
  (forall c, is_terminator c = true -> re_space c = false) ->
  exists h rest,
    split_sentences_from before s = h :: rest
    /\ (rest <> [] ->
        ends_with_terminator h
        \/ (h = [] /\ behind_terminator before = true))
    /\ Forall ends_with_terminator (removelast rest).
Proof.
  intros Hterm. revert before.
  induction s as [|c s IH]; intros before; simpl.
  - exists [], []. repeat split; [congruence | constructor].
  - destruct (IH (c :: before)) as (h & rest & Hsplit & Hhead & Hrest).
    rewrite Hsplit.
    destruct (sentence_break before c) eqn:Hbreak.
    + exists [], (h :: rest). split; [reflexivity|].
      unfold sentence_break in Hbreak.
      apply andb_prop in Hbreak. destruct Hbreak as [Hbreak Hspace].
      apply andb_prop in Hbreak. destruct Hbreak as [_ Hbehind].
      split; [intros _; right; auto|].
      destruct rest as [|p rest]; [constructor|].
      change (removelast (h :: p :: rest)) with (h :: removelast (p :: rest)).
      constructor; [|exact Hrest].
      destruct Hhead as [Hends | [_ Hc]]; [discriminate | exact Hends |].
      simpl in Hc. fold (is_terminator c) in Hc.
      rewrite (Hterm c Hc) in Hspace. discriminate.
    + exists (c :: h), rest. split; [reflexivity|].
      split; [|exact Hrest].
      intros Hmore. left.
      destruct (Hhead Hmore) as [Hends | [-> Hc]].
      * apply ends_with_terminator_cons, Hends.
      * exists [], c. split; [reflexivity | exact Hc].
Qed.

(** X8 (sentences end where they were cut).  Provided none of '.', '?',
    '!' counts as whitespace, every sentence returned by the sentence
    split except the last ends with '.', '?' or '!'. *)
Theorem sentences_end_with_terminator (s : text) :
  (forall c, is_terminator c = true -> re_space c = false) ->
  Forall ends_with_terminator (removelast (re_split_sentences s)).
Proof.
  intros Hterm. unfold re_split_sentences.
  destruct (split_sentences_from_pieces s [] Hterm)
    as (h & rest & -> & Hhead & Hrest).
  destruct rest as [|p rest]; [constructor|].
  change (removelast (h :: p :: rest)) with (h :: removelast (p :: rest)).
  constructor; [|exact Hrest].
  destruct Hhead as [Hends | [_ Habsurd]];
    [discriminate | exact Hends | discriminate Habsurd].
Qed.

End Pieces.

(* ================================================================== *)
(** ** Further properties of the classification facade *)

Section ClassificationMore.
Context `{PythonRuntime}.
Variable self : UrduLLMProcessor.

(** X9 (truncation bound).  [_truncate_text_to_tokens] returns the text
    itself when it has at most [max_tokens] tokens, and otherwise the
    string made of exactly its first [max_tokens] tokens.  Provided turning
    tokens into a string and tokenizing again never yields more tokens,
    the result has at most [max_tokens] tokens. *)
Theorem truncation_respects_limit (t : text) (max_tokens : Z) (l : log) :
  0 <= max_tokens ->
  (forall tokens,
      len (tokenize (tokenizer self)
             (convert_tokens_to_string (tokenizer self) tokens))
      <= len tokens) ->
  exists safe_text l',
    run (_truncate_text_to_tokens self t max_tokens) l = (Ok safe_text, l')
    /\ (token_count self t <= max_tokens -> safe_text = t)
    /\ (token_count self t > max_tokens ->
        exists kept,
          safe_text = convert_tokens_to_string (tokenizer self) kept
          /\ len kept = max_tokens
          /\ exists dropped, tokenize (tokenizer self) t = kept ++ dropped)
    /\ token_count self safe_text <= max_tokens.
Proof.
  intros Hmax Hround. unfold _truncate_text_to_tokens.
  rewrite run_bind, run_tokenize. fold (token_count self t).
  destruct (Z.leb_spec (token_count self t) max_tokens) as [Hle|Hgt].
  - eexists. eexists. split; [reflexivity|].
    repeat split; [lia | exact Hle].
  - eexists. eexists. split; [reflexivity|].
    assert (Hkept : len (firstn (Z.to_nat max_tokens)
                           (tokenize (tokenizer self) t)) = max_tokens).
    { unfold len. rewrite length_firstn.
      unfold token_count, len in Hgt. lia. }
    repeat split; [lia | |].
    + intros _. eexists. split; [reflexivity|]. split; [exact Hkept|].
      exists (skipn (Z.to_nat max_tokens) (tokenize (tokenizer self) t)).
      symmetry. apply firstn_skipn.
    + unfold token_count at 1. rewrite <- Hkept at 2. apply Hround.
Qed.

Lemma run_truncate_added (t : text) (max_tokens : Z) (l : log) :
  exists safe_text added,
    run (_truncate_text_to_tokens self t max_tokens) l
    = (Ok safe_text, l ++ added)
    /\ classifier_calls added = []
    /\ summarizer_calls added = [].
Proof.
  unfold _truncate_text_to_tokens. rewrite run_bind, run_tokenize.
  destruct (_ <=? _).
  - exists t, [Tokenize t]. auto.
  - eexists.
    exists [Tokenize t;
            ConvertTokens (firstn (Z.to_nat max_tokens)
                             (tokenize (tokenizer self) t))].
    unfold tokenizer_convert_tokens_to_string, run.
    rewrite <- app_assoc. auto.
Qed.

Lemma map_to_urdu_category_in_map (label : text) :
  dict_has CATEGORY_MAP (_map_to_urdu_category label) = true.
Proof.
  unfold _map_to_urdu_category.
  repeat match goal with
         | |- context [if ?b then _ else _] => destruct b
         end; vm_compute; reflexivity.
Qed.

Lemma dict_get_present (d : list (text * text)) (key d1 d2 : text) :
  dict_has d key = true -> dict_get d key d1 = dict_get d key d2.
Proof.
  induction d as [|[k v] d IH]; simpl; [discriminate|].
  destruct (text_eqb k key); simpl; auto.
Qed.

(** [classify_text] with a loaded classifier: it returns a key of
    [CATEGORY_MAP] after exactly one classifier call. *)
Lemma run_classify_text_added (model : Classifier) (t : text) (l : log) :
  classifier self = Some model ->
  exists category added,
    run (classify_text self t) l = (Ok category, l ++ added)
    /\ dict_has CATEGORY_MAP category = true
    /\ length (classifier_calls added) = 1%nat
    /\ summarizer_calls added = [].
Proof.
  intros Hmodel.
  destruct (run_truncate_added t MAX_CLASSIFICATION_TOKENS l)
    as (safe_text & added & Htrunc & Hnone1 & Hnone2).
  assert (Hother : dict_has CATEGORY_MAP TAG_OTHER = true)
    by (vm_compute; reflexivity).
  exists (match model (l ++ added) safe_text with
          | Ok (first_label :: _) => _map_to_urdu_category first_label
          | _ => TAG_OTHER
          end), (added ++ [Classify safe_text]).
  split; [|split; [|split]].
  - unfold classify_text. rewrite Hmodel.
    unfold try_except, run, bind. unfold run in Htrunc. rewrite Htrunc.
    unfold call_classifier. rewrite Hmodel. rewrite app_assoc.
    destruct (model (l ++ added) safe_text) as [[|first_label rest]|e];
      reflexivity.
  - destruct (model (l ++ added) safe_text) as [[|first_label rest]|e];
      auto using map_to_urdu_category_in_map.
  - unfold classifier_calls in *. rewrite filter_app, Hnone1. reflexivity.
  - rewrite summarizer_calls_app, Hnone2. reflexivity.
Qed.

(** X10 (the categories form a closed set).  [_map_to_urdu_category]
    returns a key of [CATEGORY_MAP] for every label, and so does
    [classify_text] with a loaded classifier, which never raises and calls
    the classifier exactly once; hence the default of
    [CATEGORY_MAP.get(category, 'other')] is never what decides the English
    name. *)
Theorem categories_are_keys_of_the_map
    (model : Classifier) (label t default1 default2 : text) (l : log) :
  dict_has CATEGORY_MAP (_map_to_urdu_category label) = true
  /\ (classifier self = Some model ->
      exists category added,
        run (classify_text self t) l = (Ok category, l ++ added)
        /\ dict_has CATEGORY_MAP category = true
        /\ dict_get CATEGORY_MAP category default1
           = dict_get CATEGORY_MAP category default2
        /\ length (classifier_calls added) = 1%nat
        /\ summarizer_calls added = []).
Proof.
  split; [apply map_to_urdu_category_in_map|].
  intros Hmodel.
  destruct (run_classify_text_added model t l Hmodel)
    as (category & added & Hrun & Hkey & Hone & Hnone).
  exists category, added.
  repeat split; auto using dict_get_present.
Qed.

End ClassificationMore.

(* ================================================================== *)
(** ** Further properties of the orchestrator *)

Section OrchestratorMore.
Context `{PythonRuntime}.
Variable self : UrduLLMProcessor.

Lemma chunk_max_length_le (n : Z) :
  1 <= n -> chunk_max_length n <= MAX_SUMMARY_LENGTH.
Proof.
  intros Hn. unfold chunk_max_length, MAX_SUMMARY_LENGTH.
  apply Z.div_le_upper_bound; lia.
Qed.

Lemma summarizer_call_within_limits (max_length min_length : Z) (c : text) :
  viable self c = true ->
  max_length <= MAX_SUMMARY_LENGTH ->
  call_within_limits self (summarizer_call self max_length min_length c).
Proof.
  intros Hviable Hmax. unfold summarizer_call. cbv zeta.
  rewrite reset_min_idle. unfold viable in Hviable.
  apply Z.geb_le in Hviable. simpl.
  unfold clamp_min, clamp_max. lia.
Qed.

Lemma kept_summary_truthy (answer : result (list text)) (acc : list text) :
  (if truthy (summary_of answer)
   then acc ++ [match summary_of answer with Some s => s | None => [] end]
   else acc)
  = acc ++ kept_summary answer.
Proof.
  destruct answer as [[|[|c s] rest]|e]; simpl;
    rewrite ?app_nil_r; reflexivity.
Qed.

Lemma kept_summary_nonempty (answer : result (list text)) :
  Forall (fun s => s <> []) (kept_summary answer).
Proof.
  destruct answer as [[|[|c s] rest]|e]; simpl; repeat constructor.
  discriminate.
Qed.

(** One iteration of the chunk loop. *)
Lemma run_summarize_chunk (model : Summarizer) (all : list text) (c : text)
    (acc : list text) (l : log) :
  summarizer self = Some model ->
  viable self c = true ->
  run (summarize_chunk self all c acc) l =
  (Ok (acc
       ++ kept_summary
            (model (l ++ [Tokenize c]) c
               (clamp_max (chunk_max_length (len all)) (token_count self c))
               (clamp_min (chunk_min_length (len all))
                  (clamp_max (chunk_max_length (len all))
                     (token_count self c))))),
   l ++ [Tokenize c;
         summarizer_call self (chunk_max_length (len all))
           (chunk_min_length (len all)) c]).
Proof.
  intros Hmodel Hviable. unfold summarize_chunk.
  rewrite run_bind, run_safe_summarize, Hmodel.
  unfold viable in Hviable.
  destruct (Z.ltb_spec (token_count self c) MIN_CHUNK_LENGTH) as [Hlt|_].
  { apply Z.geb_le in Hviable. lia. }
  cbv beta iota zeta. rewrite reset_min_idle.
  match goal with
  | |- context [truthy (summary_of ?a)] =>
      rewrite <- (kept_summary_truthy a acc); destruct (truthy (summary_of a))
  end; rewrite run_ret, <- app_assoc; reflexivity.
Qed.

(** The chunk loop: what it adds to the log and what it collects. *)
Lemma run_summarize_chunks_added (model : Summarizer)
    (all chunks acc : list text) (l : log) :
  summarizer self = Some model ->
  Forall (fun c => viable self c = true) chunks ->
  Forall (fun s => s <> []) acc ->
  exists acc' added,
    run (for_each chunks (summarize_chunk self all) acc) l
    = (Ok acc', l ++ added)
    /\ summarizer_calls added =
       map (summarizer_call self (chunk_max_length (len all))
              (chunk_min_length (len all))) chunks
    /\ Forall (fun s => s <> []) acc'.
Proof.
  intros Hmodel Hviable. revert acc l.
  induction Hviable as [|c chunks Hc _ IH]; intros acc l Hacc; simpl.
  - exists acc, []. rewrite run_ret, app_nil_r. auto.
  - rewrite run_bind, (run_summarize_chunk model) by assumption.
    match goal with
    | |- context [for_each chunks _ ?acc1] =>
        destruct (IH acc1
                    (l ++ [Tokenize c;
                           summarizer_call self (chunk_max_length (len all))
                             (chunk_min_length (len all)) c]))
          as (acc' & added & Hrun & Hcalls & Hne)
    end.
    { apply Forall_app. split; [exact Hacc | apply kept_summary_nonempty]. }
    exists acc'. eexists. rewrite Hrun, <- app_assoc.
    split; [reflexivity|]. split; [|exact Hne].
    rewrite summarizer_calls_app, Hcalls. reflexivity.
Qed.

Lemma join_nonempty (parts : list text) :
  parts <> [] -> Forall (fun s => s <> []) parts -> join [SPACE] parts <> [].
Proof.
  intros Hparts Hall. destruct parts as [|p parts]; [contradiction|].
  apply Forall_cons_iff in Hall. destruct Hall as [Hp _].
  destruct p as [|c p]; [contradiction|].
  destruct parts; discriminate.
Qed.

(** The chunked path: it returns a non-empty string and calls the
    summarizer once per viable chunk. *)
Lemma run_summarize_chunked_added (model : Summarizer) (t : text) (l : log) :
  summarizer self = Some model ->
  exists result added,
    run (summarize_chunked self t) l = (Ok result, l ++ added)
    /\ result <> []
    /\ summarizer_calls added =
       map (summarizer_call self
              (chunk_max_length (len (viable_chunks self t)))
              (chunk_min_length (len (viable_chunks self t))))
         (viable_chunks self t).
Proof.
  intros Hmodel. rewrite run_summarize_chunked. cbv zeta.
  destruct (viable_chunks self t) as [|c cs] eqn:Hviable.
  - simpl. eexists. eexists. rewrite <- app_assoc.
    split; [reflexivity|]. split; [discriminate|].
    rewrite summarizer_calls_app, summarizer_calls_chunking_log,
      summarizer_calls_tokenize.
    reflexivity.
  - simpl negb. cbv iota. rewrite run_bind.
    destruct (run_summarize_chunks_added model (c :: cs) (c :: cs) []
                ((l ++ chunking_log self t)
                 ++ map Tokenize (chunk_texts self t)) Hmodel)
      as (summaries & added & Hrun & Hcalls & Hne).
    { rewrite <- Hviable. apply viable_chunks_viable. }
    { constructor. }
    rewrite Hrun.
    exists (if negb (nonempty summaries) then NO_SUMMARY
            else join [SPACE] summaries).
    eexists. split; [|split].
    + destruct (negb (nonempty summaries)); rewrite run_ret;
        rewrite <- !app_assoc; reflexivity.
    + destruct summaries as [|s summaries]; simpl negb; cbv iota.
      * discriminate.
      * apply join_nonempty; [discriminate | exact Hne].
    + rewrite !summarizer_calls_app, summarizer_calls_chunking_log,
        summarizer_calls_tokenize, Hcalls.
      reflexivity.
Qed.

Lemma chunk_calls_within_limits (chunks : list text) (n : Z) :
  1 <= n ->
  Forall (fun c => viable self c = true) chunks ->
  Forall (call_within_limits self)
    (map (summarizer_call self (chunk_max_length n) (chunk_min_length n))
       chunks).
Proof.
  intros Hn Hviable. apply Forall_map.
  eapply Forall_impl; [|exact Hviable].
  intros c Hc. apply summarizer_call_within_limits;
    [exact Hc | apply chunk_max_length_le, Hn].
Qed.

Lemma viable_chunks_calls_within_limits (t : text) :
  Forall (call_within_limits self)
    (map (summarizer_call self
            (chunk_max_length (len (viable_chunks self t)))
            (chunk_min_length (len (viable_chunks self t))))
       (viable_chunks self t)).
Proof.
  destruct (viable_chunks self t) as [|c cs] eqn:Hviable; [constructor|].
  apply chunk_calls_within_limits.
  - unfold len. simpl length. lia.
  - rewrite <- Hviable. apply viable_chunks_viable.
Qed.

Lemma summarize_text_answers (model : Summarizer) (t : text) (l : log) :
  summarizer self = Some model ->
  exists result l',
    run (summarize_text self t) l = (Ok result, l') /\ result <> [].
Proof.
  intros Hmodel. unfold summarize_text.
  rewrite Hmodel, run_bind, run_tokenize.
  destruct (len (tokenize (tokenizer self) t) <=? MAX_SUMMARIZATION_TOKENS).
  - rewrite run_bind.
    destruct (safe_summarize_returns self t MAX_SUMMARY_LENGTH
                MIN_SUMMARY_LENGTH (l ++ [Tokenize t]))
      as (answer & l1 & Hsafe).
    rewrite Hsafe.
    destruct answer as [[|c s]|]; simpl truthy; cbv iota.
    + destruct (run_summarize_chunked_added model t l1 Hmodel)
        as (result & added & Hrun & Hne & _). eauto.
    + rewrite run_ret. eexists. eexists. split; [reflexivity | discriminate].
    + destruct (run_summarize_chunked_added model t l1 Hmodel)
        as (result & added & Hrun & Hne & _). eauto.
  - destruct (run_summarize_chunked_added model t (l ++ [Tokenize t]) Hmodel)
      as (result & added & Hrun & Hne & _). eauto.
Qed.

(** X11 ([summarize_text] always answers).  With a loaded summarizer,
    [summarize_text] never raises, whatever the summarizer does, and the
    string it returns is never empty. *)
Theorem summarize_text_returns_nonempty
    (model : Summarizer) (t : text) (l : log) :
  summarizer self = Some model ->
  exists result l',
    run (summarize_text self t) l = (Ok result, l') /\ result <> [].
Proof. apply summarize_text_answers. Qed.

(** X12 (every summarizer call is within the limits).  With a loaded
    summarizer, every summarizer call that [summarize_text] makes is on a
    text of at least [MIN_CHUNK_LENGTH] tokens, asks for at most
    [MAX_SUMMARY_LENGTH] tokens and at most as many as the text has, and
    has its minimum length below its maximum; there are at most one call
    more than there are viable chunks. *)
Theorem summarizer_calls_within_limits
    (model : Summarizer) (t : text) (l : log) :
  summarizer self = Some model ->
  exists result added,
    run (summarize_text self t) l = (Ok result, l ++ added)
    /\ Forall (call_within_limits self) (summarizer_calls added)
    /\ (length (summarizer_calls added)
        <= 1 + length (viable_chunks self t))%nat.
Proof.
  intros Hmodel. unfold summarize_text.
  rewrite Hmodel, run_bind, run_tokenize. fold (token_count self t).
  pose proof (viable_chunks_calls_within_limits t) as Hchunks.
  destruct (token_count self t <=? MAX_SUMMARIZATION_TOKENS).
  - rewrite run_bind, run_safe_summarize, Hmodel.
    destruct (Z.ltb_spec (token_count self t) MIN_CHUNK_LENGTH) as [Hlt|Hge].
    + simpl truthy. cbv iota.
      destruct (run_summarize_chunked_added model t
                  ((l ++ [Tokenize t]) ++ [Tokenize t]) Hmodel)
        as (result & added & Hrun & _ & Hcalls).
      exists result. eexists. rewrite Hrun, <- !app_assoc.
      split; [reflexivity|].
      rewrite !summarizer_calls_app, Hcalls. simpl.
      split; [exact Hchunks | rewrite length_map; lia].
    + cbv zeta.
      assert (Hwhole : call_within_limits self
                         (summarizer_call self MAX_SUMMARY_LENGTH
                            MIN_SUMMARY_LENGTH t)).
      { apply summarizer_call_within_limits; [|lia].
        unfold viable. apply Z.geb_le, Hge. }
      cbv beta iota.
      match goal with
      | |- context [truthy ?s] => destruct (truthy s)
      end.
      * rewrite run_ret. eexists. eexists. rewrite <- !app_assoc.
        split; [reflexivity|]. simpl. split; [|lia].
        constructor; [exact Hwhole | constructor].
      * match goal with
        | |- context [run (summarize_chunked self t) ?l1] =>
            destruct (run_summarize_chunked_added model t l1 Hmodel)
              as (result & added & Hrun & _ & Hcalls)
        end.
        exists result. eexists. rewrite Hrun, <- !app_assoc.
        split; [reflexivity|].
        rewrite !summarizer_calls_app, Hcalls. simpl.
        split; [|rewrite length_map; lia].
        constructor; [exact Hwhole | exact Hchunks].
  - destruct (run_summarize_chunked_added model t (l ++ [Tokenize t]) Hmodel)
      as (result & added & Hrun & _ & Hcalls).
    exists result. eexists. rewrite Hrun, <- !app_assoc.
    split; [reflexivity|].
    rewrite !summarizer_calls_app, Hcalls. simpl.
    split; [exact Hchunks | rewrite length_map; lia].
Qed.

Lemma run_summarize_chunks_pure (model : Summarizer)
    (answer : text -> Z -> Z -> result (list text))
    (all chunks acc : list text) (l : log) :
  summarizer self = Some model ->
  (forall l0 c max_length min_length,
      model l0 c max_length min_length = answer c max_length min_length) ->
  Forall (fun c => viable self c = true) chunks ->
  fst (run (for_each chunks (summarize_chunk self all) acc) l)
  = Ok (acc ++ summaries_of self answer (len all) chunks).
Proof.
  intros Hmodel Hpure Hviable. revert acc l.
  induction Hviable as [|c chunks Hc _ IH]; intros acc l; simpl.
  - rewrite app_nil_r. reflexivity.
  - rewrite run_bind, (run_summarize_chunk model) by assumption.
    rewrite IH, Hpure, <- app_assoc. reflexivity.
Qed.

(** X13 (the summaries are joined in chunk order).  With a loaded
    summarizer whose answer depends only on its arguments, the chunked path
    returns the 'too short' message when no chunk is viable, and otherwise
    the summaries of the viable chunks joined by single spaces in chunk
    order, the chunks whose call raised, returned nothing or returned an
    empty string being left out; when every chunk is left out it returns
    the other message. *)
Theorem chunk_summaries_joined_in_order (model : Summarizer)
    (answer : text -> Z -> Z -> result (list text)) (t : text) (l : log) :
  summarizer self = Some model ->
  (forall l0 c max_length min_length,
      model l0 c max_length min_length = answer c max_length min_length) ->
  let viable_list := viable_chunks self t in
  let summaries := summaries_of self answer (len viable_list) viable_list in
  fst (run (summarize_chunked self t) l)
  = Ok (if negb (nonempty viable_list) then NO_SUMMARY_TOO_SHORT
        else if negb (nonempty summaries) then NO_SUMMARY
        else join [SPACE] summaries).
Proof.
  intros Hmodel Hpure. cbv zeta. rewrite run_summarize_chunked. cbv zeta.
  destruct (negb (nonempty (viable_chunks self t))); [reflexivity|].
  rewrite run_bind.
  pose proof (run_summarize_chunks_pure model answer (viable_chunks self t)
                (viable_chunks self t) []
                ((l ++ chunking_log self t)
                 ++ map Tokenize (chunk_texts self t))
                Hmodel Hpure (viable_chunks_viable self t)) as Hloop.
  destruct (run (for_each (viable_chunks self t)
                   (summarize_chunk self (viable_chunks self t)) []) _)
    as [r l1].
  simpl in Hloop. subst r.
  destruct (negb (nonempty _)); reflexivity.
Qed.

End OrchestratorMore.

(* ================================================================== *)
(** ** Properties of the batch *)

Section BatchProperties.
Context `{PythonRuntime} `{FileSystem}.
Variable self : UrduLLMProcessor.

Lemma run_try_except {A} (body : M A) (handler : exn -> M A) (l : log) :
  run (try_except body handler) l =
  match run body l with
  | (Ok a, l') => (Ok a, l')
  | (Raise e, l') => run (handler e) l'
  end.
Proof. reflexivity. Qed.

Lemma run_of_result {A} (r : result A) (l : log) :
  run (of_result r) l = (r, l).
Proof. reflexivity. Qed.

Lemma sample_of_short (t : text) : len t <= 100 -> sample_of t = t.
Proof.
  intros Hshort. unfold sample_of.
  destruct (Z.gtb_spec (len t) 100); [lia | reflexivity].
Qed.

Lemma sample_of_long (t : text) : 100 < len t -> len (sample_of t) = 103.
Proof.
  intros Hlong. unfold sample_of.
  destruct (Z.gtb_spec (len t) 100); [|lia].
  unfold len in *. rewrite length_app, length_firstn.
  change (length (py "...")) with 3%nat. lia.
Qed.

Lemma batch_outcome_same (file : text * text) (state : list row * Z) :
  processable file = false -> batch_outcome self [file] state state.
Proof.
  intros Hno. exists []. simpl. rewrite Hno, app_nil_r.
  repeat split; auto. unfold len. simpl. lia.
Qed.

Lemma batch_outcome_failed (file : text * text) (state : list row * Z) :
  classifier self = None \/ summarizer self = None ->
  batch_outcome self [file] state state.
Proof.
  intros Hmissing. exists []. simpl. rewrite app_nil_r.
  repeat split; auto.
  - unfold len. simpl. lia.
  - intros Hc Hs. destruct Hmissing; contradiction.
Qed.

(** One file. *)
Lemma run_process_file (root filename : text) (state : list row * Z)
    (l : log) :
  exists state' l',
    run (process_file self root filename state) l = (Ok state', l')
    /\ batch_outcome self [(root, filename)] state state'.
Proof.
  unfold process_file.
  destruct (endswith filename (py ".txt")) eqn:Hext.
  2:{ exists state, l. rewrite run_ret. split; [reflexivity|].
      apply batch_outcome_same. unfold processable. simpl.
      rewrite Hext. reflexivity. }
  rewrite run_try_except, run_bind, run_of_result.
  destruct (read_file (path_join root filename)) as [content|e] eqn:Hread;
    cbv beta iota zeta.
  2:{ exists state, l. rewrite run_ret. split; [reflexivity|].
      apply batch_outcome_same. unfold processable. simpl.
      rewrite Hext, Hread. reflexivity. }
  destruct (nonempty (strip content)) eqn:Htext; simpl negb; cbv iota.
  2:{ exists state, l. rewrite run_ret. split; [reflexivity|].
      apply batch_outcome_same. unfold processable. simpl.
      rewrite Hext, Hread, Htext. reflexivity. }
  assert (Hyes : processable (root, filename) = true).
  { unfold processable. simpl. rewrite Hext, Hread, Htext. reflexivity. }
  rewrite run_bind.
  destruct (classifier self) as [cmodel|] eqn:Hc.
  2:{ exists state, l. unfold classify_text. rewrite Hc, run_raise_eq, run_ret.
      split; [reflexivity|]. apply batch_outcome_failed. left. exact Hc. }
  destruct (run_classify_text_added self cmodel (strip content) l Hc)
    as (category & added & Hclassify & Hkey & _ & _).
  rewrite Hclassify, run_bind.
  destruct (summarizer self) as [smodel|] eqn:Hs.
  2:{ exists state, (l ++ added). unfold summarize_text.
      rewrite Hs, run_raise_eq, run_ret.
      split; [reflexivity|]. apply batch_outcome_failed. right. exact Hs. }
  destruct (summarize_text_answers self smodel (strip content) (l ++ added) Hs)
    as (result & l' & Hsummarize & Hresult).
  rewrite Hsummarize, run_ret.
  eexists. exists l'. split; [reflexivity|].
  eexists [_]. cbn [fst snd]. split; [reflexivity|].
  split; [unfold len; cbn [length]; lia|].
  split; [|split].
  - constructor; [|constructor]. unfold row_ok.
    cbn [file_name text_length text_sample category_urdu category_english
         summary].
    assert (Hlen : 0 < len (strip content)).
    { unfold len. destruct (strip content); [discriminate | simpl; lia]. }
    repeat split; auto.
    + intros Hshort. rewrite sample_of_short by exact Hshort. reflexivity.
    + apply sample_of_long.
    + intros default. apply dict_get_present, Hkey.
  - intros [Hnone | Hnone]; congruence.
  - intros _ _. cbn [map filter file_name]. rewrite Hyes. reflexivity.
Qed.

Lemma batch_outcome_none (state : list row * Z) :
  batch_outcome self [] state state.
Proof.
  exists []. simpl. rewrite app_nil_r. repeat split; auto.
  unfold len. simpl. lia.
Qed.

Lemma batch_outcome_then (files1 files2 : list (text * text))
    (a b c : list row * Z) :
  batch_outcome self files1 a b -> batch_outcome self files2 b c ->
  batch_outcome self (files1 ++ files2) a c.
Proof.
  intros (rows1 & Hfst1 & Hsnd1 & Hok1 & Hmiss1 & Hload1)
         (rows2 & Hfst2 & Hsnd2 & Hok2 & Hmiss2 & Hload2).
  exists (rows1 ++ rows2). repeat split.
  - rewrite Hfst2, Hfst1, app_assoc. reflexivity.
  - rewrite Hsnd2, Hsnd1. unfold len. rewrite length_app. lia.
  - apply Forall_app. auto.
  - intros Hmissing. rewrite (Hmiss1 Hmissing), (Hmiss2 Hmissing).
    reflexivity.
  - intros Hc Hs. rewrite map_app, filter_app, map_app.
    rewrite (Hload1 Hc Hs), (Hload2 Hc Hs). reflexivity.
Qed.

(** The files of one directory. *)
Lemma run_process_directory (entry : text * list text)
    (state : list row * Z) (l : log) :
  exists state' l',
    run (process_directory self entry state) l = (Ok state', l')
    /\ batch_outcome self (map (pair (fst entry)) (snd entry)) state state'.
Proof.
  unfold process_directory. destruct entry as [root files]. cbn [fst snd].
  revert state l. induction files as [|filename files IH]; intros state l.
  - exists state, l. split; [reflexivity | apply batch_outcome_none].
  - cbn [for_each map]. rewrite run_bind.
    destruct (run_process_file root filename state l)
      as (state1 & l1 & Hrun1 & Hout1).
    rewrite Hrun1.
    destruct (IH state1 l1) as (state2 & l2 & Hrun2 & Hout2).
    exists state2, l2. split; [exact Hrun2|].
    apply (batch_outcome_then [(root, filename)] _ state state1 state2);
      assumption.
Qed.

(** All the directories of the walk. *)
Lemma run_process_directories (entries : list (text * list text))
    (state : list row * Z) (l : log) :
  exists state' l',
    run (for_each entries (process_directory self) state) l = (Ok state', l')
    /\ batch_outcome self
         (flat_map (fun entry => map (pair (fst entry)) (snd entry)) entries)
         state state'.
Proof.
  revert state l. induction entries as [|entry entries IH]; intros state l.
  - exists state, l. split; [reflexivity | apply batch_outcome_none].
  - cbn [for_each flat_map]. rewrite run_bind.
    destruct (run_process_directory entry state l)
      as (state1 & l1 & Hrun1 & Hout1).
    rewrite Hrun1.
    destruct (IH state1 l1) as (state2 & l2 & Hrun2 & Hout2).
    exists state2, l2. split; [exact Hrun2|].
    apply (batch_outcome_then _ _ state state1 state2); assumption.
Qed.

(** Everything about a run of [process_files]. *)
Lemma run_process_files (l : log) :
  exists rows l',
    run (process_files self) l = (Ok rows, l')
    /\ Forall row_ok rows
    /\ (path_exists articles_path = false -> rows = [] /\ l' = l)
    /\ (classifier self = None \/ summarizer self = None -> rows = [])
    /\ (path_exists articles_path = true ->
        classifier self <> None -> summarizer self <> None ->
        map file_name rows = map snd (filter processable walked_files)).
Proof.
  unfold process_files.
  destruct (path_exists articles_path) eqn:Hdir; simpl negb; cbv iota.
  - rewrite run_bind.
    destruct (run_process_directories (walk articles_path) ([], 0) l)
      as (state & l' & Hrun & rows & Hfst & _ & Hok & Hmiss & Hload).
    rewrite Hrun, run_ret. simpl in Hfst. rewrite Hfst.
    exists rows, l'. repeat split; auto; discriminate.
  - exists [], l. rewrite run_ret. repeat split; auto; discriminate.
Qed.

(** X14 (the batch never fails).  [process_files] never raises, whatever
    the files and the models do.  When the articles directory does not
    exist it returns no row and calls nothing; when the classifier or the
    summarizer is not loaded it returns no row either, every file having
    failed silently. *)
Theorem process_files_never_raises (l : log) :
  exists rows l',
    run (process_files self) l = (Ok rows, l')
    /\ (path_exists articles_path = false -> rows = [] /\ l' = l)
    /\ (classifier self = None \/ summarizer self = None -> rows = []).
Proof.
  destruct (run_process_files l)
    as (rows & l' & Hrun & _ & Hdir & Hmiss & _).
  exists rows, l'. auto.
Qed.

(** X15 (one row per processable file).  With both models loaded and the
    articles directory present, [process_files] returns exactly one row for
    every file of the walk whose name ends in '.txt', that can be read and
    whose content is not blank, in the order of the walk; every other file
    is passed over, and a file that cannot be read stops nothing. *)
Theorem process_files_rows_follow_the_walk (l : log) :
  path_exists articles_path = true ->
  classifier self <> None ->
  summarizer self <> None ->
  exists rows l',
    run (process_files self) l = (Ok rows, l')
    /\ map file_name rows = map snd (filter processable walked_files).
Proof.
  intros Hdir Hc Hs.
  destruct (run_process_files l)
    as (rows & l' & Hrun & _ & _ & _ & Hload).
  exists rows, l'. auto.
Qed.

(** X16 (every row is well formed).  In every row that [process_files]
    returns, the file name ends in '.txt', the text length is positive, the
    sample has as many characters as the text up to 100 and 103 characters
    beyond, the category is a key of [CATEGORY_MAP] and the English
    category is its value there, and the summary is not empty. *)
Theorem process_files_rows_are_well_formed (l : log) :
  exists rows l',
    run (process_files self) l = (Ok rows, l') /\ Forall row_ok rows.
Proof.
  destruct (run_process_files l) as (rows & l' & Hrun & Hok & _).
  exists rows, l'. auto.
Qed.

End BatchProperties.

(* ================================================================== *)
(** ** Loading the models *)

Section LoadingProperties.
Context `{PythonRuntime}.

(** X17 (the models are loaded in order).  [initialize_models] on a fresh
    processor returns [True] exactly when the summarizer ends up loaded; a
    loaded summarizer comes with a loaded classifier, and a loaded
    classifier with a loaded tokenizer; after [True] the processor passes
    the guards of [classify_text] and [summarize_text]. *)
Theorem initialize_models_in_order (hub : ModelHub) :
  let after := fst (initialize_models hub __init__) in
  let ok := snd (initialize_models hub __init__) in
  (ok = true <-> attr_summarizer after <> None)
  /\ (attr_summarizer after <> None -> attr_classifier after <> None)
  /\ (attr_classifier after <> None -> attr_tokenizer after <> None)
  /\ (ok = true ->
      exists self,
        loaded after = Some self
        /\ classifier self <> None /\ summarizer self <> None).
Proof.
  unfold initialize_models, __init__, loaded.
  destruct (load_tokenizer hub) as [tok|e1]; simpl.
  - destruct (load_classifier hub tok) as [cmodel|e2]; simpl.
    + destruct (load_summarizer hub) as [smodel|e3]; simpl.
      * repeat split; try discriminate; auto.
        intros _. eexists. repeat split; simpl; discriminate.
      * repeat split; try discriminate; try congruence.
    + repeat split; try discriminate; try congruence.
  - repeat split; try discriminate; try congruence.
Qed.

End LoadingProperties.

(* ================================================================== *)
(** ** The further properties on concrete inputs *)

Module MoreExamples.
Import Demo DemoBatch.

Lemma in_chars (c : char) (n : nat) (x : char) :
  In c (concat (repeat [x] n)) -> c = x.
Proof.
  induction n as [|n IH]; simpl; [contradiction|].
  intros [<- | Hin]; [reflexivity | apply IH, Hin].
Qed.

Lemma ascii_terminators_are_not_space (c : char) :
  is_terminator c = true -> re_space c = false.
Proof.
  unfold is_terminator. intros Hc.
  apply orb_prop in Hc. destruct Hc as [Hc | Hc];
    [apply orb_prop in Hc; destruct Hc as [Hc | Hc]|];
    apply N.eqb_eq in Hc; subst c; reflexivity.
Qed.

Lemma char_tokenizer_never_adds (tokens : list token) :
  len (tokenize char_tokenizer (convert_tokens_to_string char_tokenizer tokens))
  <= len tokens.
Proof.
  unfold len. simpl.
  pose proof (filter_length_le (fun c : char => negb (re_space c)) tokens).
  lia.
Qed.

(** *** The chunk packer *)

(** Two paragraphs of 200 and 700 tokens: the first chunk was closed
    because the second paragraph did not fit beside it. *)
Lemma chunk_closed_only_when_full_witness :
  exists g u,
    total_tokens (processor None None) g + token_count (processor None None) u
    > MAX_SUMMARIZATION_TOKENS.
Proof.
  destruct (chunk_closed_only_when_full (processor None None)
              two_long_paragraphs [])
    as (groups & Hrun & _ & Hfull).
  assert (Hchunks :
            fst (run (_chunk_text_for_summarization (processor None None)
                        two_long_paragraphs) [])
            = Ok [chars 200 "a"; chars 700 "b"])
    by (vm_compute; reflexivity).
  rewrite Hchunks in Hrun. injection Hrun as Hrun.
  destruct groups as [|g1 [|g2 [|g3 rest]]]; try discriminate Hrun.
  cbn [map] in Hrun. injection Hrun as _ Hsecond.
  destruct g2 as [|u others]; [vm_compute in Hsecond; discriminate Hsecond|].
  exists g1, u. apply (Hfull [] [] g1 others u). reflexivity.
Defined.

Lemma text_within_limit_is_one_chunk_witness :
  fst (run (_chunk_text_for_summarization (processor None None)
              (py "Hi there. Go now.")) [])
  = Ok [py "Hi there. Go now."].
Proof.
  refine (text_within_limit_is_one_chunk (processor None None)
            (py "Hi there. Go now.") [] _).
  vm_compute. discriminate.
Defined.

Lemma oversized_unit_is_its_own_chunk_witness :
  exists groups,
    fst (run (_chunk_text_for_summarization (processor None None)
                two_paragraphs) [])
    = Ok (map (join [SPACE]) groups)
    /\ concat groups = structural_units (processor None None) two_paragraphs
    /\ In [chars 800 "d"] groups
    /\ In (chars 800 "d") (map (join [SPACE]) groups).
Proof.
  refine (oversized_unit_is_its_own_chunk (processor None None)
            two_paragraphs (chars 800 "d") [] _ _).
  - vm_compute. right. right. left. reflexivity.
  - vm_compute. reflexivity.
Defined.

(** An Urdu sentence, which ends with the Urdu full stop, is one chunk. *)
Lemma unpunctuated_text_is_one_chunk_witness :
  run (_chunk_text_for_summarization (processor None None) urdu_sentence) []
  = (Ok [urdu_sentence], [Tokenize urdu_sentence]).
Proof.
  refine (unpunctuated_text_is_one_chunk (processor None None)
            urdu_sentence [] _ _).
  - intros Hin. vm_compute in Hin.
    repeat (destruct Hin as [Hin | Hin]; [discriminate Hin|]).
    exact Hin.
  - intros c Hin. vm_compute in Hin.
    repeat (destruct Hin as [<- | Hin]; [reflexivity|]).
    destruct Hin.
Defined.

Lemma long_unpunctuated_text_summarized_whole_witness :
  exists result l',
    run (summarize_text (processor None (Some constant_summarizer))
           (chars 800 "d")) [] = (Ok result, l')
    /\ summarizer_calls l' = [Summarize (chars 800 "d") 120 25].
Proof.
  refine (long_unpunctuated_text_summarized_whole
            (processor None (Some constant_summarizer)) constant_summarizer
            (chars 800 "d") [] eq_refl _ _ _).
  - vm_compute. reflexivity.
  - intros Hin. apply in_chars in Hin. discriminate Hin.
  - intros c Hin. apply in_chars in Hin. subst c. reflexivity.
Defined.

Lemma sentences_end_with_terminator_witness :
  Forall ends_with_terminator
    (removelast (re_split_sentences (py "Is it? Yes. Mr. Smith said so! ok"))).
Proof.
  exact (sentences_end_with_terminator
           (py "Is it? Yes. Mr. Smith said so! ok")
           ascii_terminators_are_not_space).
Defined.

(** *** The classification facade *)

Lemma truncation_respects_limit_witness :
  exists safe_text l',
    run (_truncate_text_to_tokens (processor None None) (py "ab cdef") 3) []
    = (Ok safe_text, l')
    /\ token_count (processor None None) safe_text <= 3.
Proof.
  destruct (truncation_respects_limit (processor None None) (py "ab cdef") 3
              [] ltac:(lia) char_tokenizer_never_adds)
    as (safe_text & l' & Hrun & _ & _ & Hbound).
  exists safe_text, l'. split; [exact Hrun | exact Hbound].
Defined.

Lemma categories_are_keys_of_the_map_witness :
  exists category added,
    run (classify_text (processor (Some echo_classifier) None)
           (py "SPORTS news")) [] = (Ok category, [] ++ added)
    /\ dict_has CATEGORY_MAP category = true
    /\ length (classifier_calls added) = 1%nat.
Proof.
  destruct (proj2 (categories_are_keys_of_the_map
                     (processor (Some echo_classifier) None) echo_classifier
                     [] (py "SPORTS news") (py "other") [] [])
              eq_refl)
    as (category & added & Hrun & Hkey & _ & Hone & _).
  exists category, added. auto.
Defined.

(** *** The orchestrator *)

Lemma summarize_text_returns_nonempty_witness :
  exists result l',
    run (summarize_text (processor None (Some failing_summarizer))
           two_long_paragraphs) [] = (Ok result, l')
    /\ result <> [].
Proof.
  exact (summarize_text_returns_nonempty
           (processor None (Some failing_summarizer)) failing_summarizer
           two_long_paragraphs [] eq_refl).
Defined.

Lemma summarizer_calls_within_limits_witness :
  exists result added,
    run (summarize_text (processor None (Some flaky_summarizer))
           two_long_paragraphs) [] = (Ok result, [] ++ added)
    /\ Forall (call_within_limits (processor None (Some flaky_summarizer)))
         (summarizer_calls added).
Proof.
  destruct (summarizer_calls_within_limits
              (processor None (Some flaky_summarizer)) flaky_summarizer
              two_long_paragraphs [] eq_refl)
    as (result & added & Hrun & Hcalls & _).
  exists result, added. auto.
Defined.

Lemma chunk_summaries_joined_in_order_witness :
  fst (run (summarize_chunked (processor None (Some constant_summarizer))
              two_long_paragraphs) [])
  = Ok (py "summary summary").
Proof.
  pose proof (chunk_summaries_joined_in_order
                (processor None (Some constant_summarizer))
                constant_summarizer (fun _ _ _ => Ok [py "summary"])
                two_long_paragraphs [] eq_refl
                (fun _ _ _ _ => eq_refl)) as W.
  cbv zeta in W. rewrite W. vm_compute. reflexivity.
Defined.

(** *** The batch *)

Lemma process_files_never_raises_witness :
  (exists rows l',
      run (@process_files _ no_directory
             (processor (Some echo_classifier) (Some constant_summarizer)))
        [] = (Ok rows, l')
      /\ rows = [] /\ l' = [])
  /\ (exists rows l',
         run (process_files (processor None (Some constant_summarizer))) []
         = (Ok rows, l')
         /\ rows = []).
Proof.
  split.
  - destruct (@process_files_never_raises _ no_directory
                (processor (Some echo_classifier) (Some constant_summarizer))
                [])
      as (rows & l' & Hrun & Hdir & _).
    exists rows, l'. split; [exact Hrun | apply Hdir; reflexivity].
  - destruct (@process_files_never_raises _ two_directories
                (processor None (Some constant_summarizer)) [])
      as (rows & l' & Hrun & _ & Hmissing).
    exists rows, l'. split; [exact Hrun | apply Hmissing; left; reflexivity].
Defined.

Lemma process_files_rows_follow_the_walk_witness :
  exists rows l',
    run (process_files
           (processor (Some echo_classifier) (Some constant_summarizer))) []
    = (Ok rows, l')
    /\ map file_name rows = [py "a.txt"; py "b.txt"].
Proof.
  destruct (@process_files_rows_follow_the_walk _ two_directories
              (processor (Some echo_classifier) (Some constant_summarizer))
              [] eq_refl ltac:(discriminate) ltac:(discriminate))
    as (rows & l' & Hrun & Hnames).
  exists rows, l'. split; [exact Hrun|].
  rewrite Hnames. vm_compute. reflexivity.
Defined.

(** The rows of the two directories. *)
Example process_files_two_directories :
  fst (run (process_files
              (processor (Some echo_classifier) (Some constant_summarizer)))
         [])
  = Ok [ {| file_name := py "a.txt";
            file_path := py "root/a.txt";
            category_urdu := TAG_SPORTS;
            category_english := py "sports";
            summary := NO_SUMMARY_TOO_SHORT;
            text_length := 11;
            text_sample := py "SPORTS news" |};
         {| file_name := py "b.txt";
            file_path := py "root/sub/b.txt";
            category_urdu := TAG_TECHNOLOGY;
            category_english := py "technology";
            summary := NO_SUMMARY_TOO_SHORT;
            text_length := 4;
            text_sample := py "tech" |} ].
Proof. vm_compute. reflexivity. Qed.

(** *** Loading the models *)

Lemma initialize_models_in_order_witness :
  snd (initialize_models full_hub __init__) = true
  /\ snd (initialize_models hub_without_summarizer __init__) = false
  /\ exists self,
       loaded (fst (initialize_models full_hub __init__)) = Some self
       /\ classifier self <> None /\ summarizer self <> None.
Proof.
  split; [reflexivity|]. split; [reflexivity|].
  exact (proj2 (proj2 (proj2 (initialize_models_in_order full_hub)))
           eq_refl).
Defined.

End MoreExamples.

(* ================================================================== *)
(** ** Short texts and plainly spaced texts *)

Section ShortAndPlain.
Context `{PythonRuntime}.
Variable self : UrduLLMProcessor.

(** X18 (a text below the minimum gets the 'too short' message).  With a
    loaded summarizer, a text of fewer than [MIN_CHUNK_LENGTH] tokens none
    of whose chunks reaches [MIN_CHUNK_LENGTH] tokens yields the 'too
    short' message, and the summarizer is not called at all. *)
Theorem short_text_is_not_summarized (model : Summarizer) (t : text)
    (l : log) :
  summarizer self = Some model ->
  token_count self t < MIN_CHUNK_LENGTH ->
  (forall chunk, In chunk (chunk_texts self t) ->
                 token_count self chunk < MIN_CHUNK_LENGTH) ->
  exists l',
    run (summarize_text self t) l = (Ok NO_SUMMARY_TOO_SHORT, l')
    /\ summarizer_calls l' = summarizer_calls l.
Proof.
  intros Hmodel Hshort Hchunks. unfold summarize_text.
  rewrite Hmodel, run_bind, run_tokenize. fold (token_count self t).
  destruct (Z.leb_spec (token_count self t) MAX_SUMMARIZATION_TOKENS)
    as [_|Hlong].
  2:{ unfold MIN_CHUNK_LENGTH, MAX_SUMMARIZATION_TOKENS in *. lia. }
  rewrite run_bind, run_safe_summarize.
  destruct (Z.ltb_spec (token_count self t) MIN_CHUNK_LENGTH); [|lia].
  simpl truthy. cbv iota. rewrite run_summarize_chunked. cbv zeta.
  rewrite (no_viable_chunks self t Hchunks). simpl.
  eexists. split; [reflexivity|].
  rewrite !summarizer_calls_app, summarizer_calls_chunking_log,
    summarizer_calls_tokenize, !app_nil_r.
  reflexivity.
Qed.

Lemma split_sentences_from_cons (s before : text) :
  exists h rest, split_sentences_from before s = h :: rest.
Proof.
  destruct s as [|c s]; simpl; [eauto|].
  destruct (sentence_break before c); [eauto|].
  destruct (split_sentences_from (c :: before) s); simpl; eauto.
Qed.

Lemma join_cons_head (c : char) (h : text) (rest : list text) :
  join [SPACE] (cons_head c (h :: rest)) = c :: join [SPACE] (h :: rest).
Proof. destruct rest; reflexivity. Qed.

Lemma join_split_sentences_from (s before : text) :
  (forall c, In c s -> re_space c = true -> c = SPACE) ->
  join [SPACE] (split_sentences_from before s) = s.
Proof.
  revert before. induction s as [|c s IH]; intros before Hplain; simpl;
    [reflexivity|].
  assert (Hrest : forall c', In c' s -> re_space c' = true -> c' = SPACE)
    by (intros c' Hin; apply Hplain; right; exact Hin).
  specialize (IH (c :: before) Hrest).
  destruct (split_sentences_from_cons s (c :: before)) as (h & rest & Hsplit).
  rewrite Hsplit in *.
  destruct (sentence_break before c) eqn:Hbreak.
  - unfold sentence_break in Hbreak.
    apply andb_prop in Hbreak. destruct Hbreak as [_ Hspace].
    rewrite (Hplain c (or_introl eq_refl) Hspace).
    change (join [SPACE] ([] :: h :: rest))
      with ([] ++ [SPACE] ++ join [SPACE] (h :: rest)).
    rewrite IH. reflexivity.
  - rewrite join_cons_head, IH. reflexivity.
Qed.

(** X19 (round trip of a plainly spaced text).  When the only whitespace
    in a text is the single space character, joining its sentences with
    single spaces gives the text back; if moreover the token counts of the
    sentences add up to at most [MAX_SUMMARIZATION_TOKENS], the packer
    returns the text itself as its one chunk. *)
Theorem plainly_spaced_text_round_trip (t : text) (l : log) :
  (forall c, In c t -> re_space c = true -> c = SPACE) ->
  join [SPACE] (re_split_sentences t) = t
  /\ (total_tokens self (re_split_sentences t) <= MAX_SUMMARIZATION_TOKENS ->
      fst (run (_chunk_text_for_summarization self t) l) = Ok [t]).
Proof.
  intros Hplain.
  assert (Hjoin : join [SPACE] (re_split_sentences t) = t)
    by (apply join_split_sentences_from, Hplain).
  split; [exact Hjoin|].
  intros Hfit.
  assert (Hline : ~ In NEWLINE t).
  { intros Hin. specialize (Hplain NEWLINE Hin eq_refl). discriminate Hplain. }
  assert (Hunits : structural_units self t = re_split_sentences t).
  { unfold structural_units, re_split_paragraphs.
    rewrite split_paragraphs_no_newline by exact Hline. reflexivity. }
  rewrite run_chunk_text. simpl fst. unfold chunk_texts. cbv zeta.
  rewrite Hunits.
  destruct (pack_all_fits self (re_split_sentences t) packer_start)
    as [Hchunks Hcurrent]; simpl; auto.
  rewrite Hchunks, Hcurrent. cbn [app]. unfold flush.
  pose proof (separated_nonempty _ _ (re_split_sentences_separated t)).
  destruct (re_split_sentences t) as [|s0 rest] eqn:Hs; [contradiction|].
  cbn [nonempty app current_chunk packer_start]. rewrite Hjoin.
  reflexivity.
Qed.

End ShortAndPlain.

Module PlainExamples.
Import Demo.

Lemma short_text_is_not_summarized_witness :
  exists l',
    run (summarize_text (processor None (Some constant_summarizer))
           short_text) [] = (Ok NO_SUMMARY_TOO_SHORT, l')
    /\ summarizer_calls l' = [].
Proof.
  refine (short_text_is_not_summarized
            (processor None (Some constant_summarizer)) constant_summarizer
            short_text [] eq_refl _ _).
  - vm_compute. reflexivity.
  - intros chunk Hin. vm_compute in Hin.
    destruct Hin as [<- | []]. vm_compute. reflexivity.
Defined.

Lemma plainly_spaced_text_round_trip_witness :
  join [SPACE] (re_split_sentences (py "Is it? Yes. It is."))
  = py "Is it? Yes. It is."
  /\ fst (run (_chunk_text_for_summarization (processor None None)
                 (py "Is it? Yes. It is.")) [])
     = Ok [py "Is it? Yes. It is."].
Proof.
  assert (Hplain : forall c, In c (py "Is it? Yes. It is.") ->
                             re_space c = true -> c = SPACE).
  { intros c Hin. vm_compute in Hin.
    repeat (destruct Hin as [<- | Hin];
            [vm_compute; intros E; (reflexivity || discriminate E)|]).
    destruct Hin. }
  destruct (plainly_spaced_text_round_trip (processor None None)
              (py "Is it? Yes. It is.") [] Hplain)
    as [Hjoin Hchunk].
  split; [exact Hjoin|]. apply Hchunk. vm_compute. discriminate.
Defined.

End PlainExamples.
